(** * dotbot-brew: the Brew plugin (brew.py)

    A shallow embedding of the [Brew] directive processor and the
    properties of its orchestration layer: which shell commands are
    issued, in which order, and how their exit statuses are turned into
    log lines, return values and exceptions.

    Python strings are modelled as [string] (ASCII text), the shell as
    a state-passing oracle giving the exit status of every
    [subprocess.run] call, and the plugin's methods as computations in
    a small monad that threads the outside world, collects the events
    emitted (log lines and subprocess calls, in order) and either
    returns a value or raises a Python exception. *)

From Stdlib Require Import String Ascii List Bool Arith ZArith Lia.
From Stdlib Require DecimalString.
From ExtLib Require Import Structures.Monad.
Import ListNotations.
Import MonadNotation.
Local Open Scope string_scope.
Local Open Scope monad_scope.

(** ** Python string helpers *)

Module PyStr.

(** The double-quote character, and a few control characters. *)
Definition dq_char : ascii := ascii_of_nat 34.
Definition sq_char : ascii := ascii_of_nat 39.
Definition bs_char : ascii := ascii_of_nat 92.
Definition dq : string := String dq_char EmptyString.

(** [c in s] for a character. *)
Fixpoint has_char (c : ascii) (s : string) : bool :=
  match s with
  | EmptyString => false
  | String a r => Ascii.eqb a c || has_char c r
  end.

(** [sub in s] for strings. *)
Fixpoint contains (sub s : string) : bool :=
  String.prefix sub s ||
  match s with
  | EmptyString => false
  | String _ r => contains sub r
  end.

Definition hex_digit (n : nat) : ascii :=
  if (n <? 10)%nat then ascii_of_nat (48 + n) else ascii_of_nat (87 + n).

(** One character of [repr(str)], inside quotes [q]. *)
Definition escape_char (q c : ascii) : string :=
  let n := nat_of_ascii c in
  if Ascii.eqb c bs_char then String bs_char (String bs_char EmptyString)
  else if Ascii.eqb c q then String bs_char (String q EmptyString)
  else if (n =? 9)%nat then String bs_char "t"
  else if (n =? 10)%nat then String bs_char "n"
  else if (n =? 13)%nat then String bs_char "r"
  else if ((n <? 32) || (n =? 127))%nat then
    String bs_char (String "x" (String (hex_digit (n / 16))
                                  (String (hex_digit (n mod 16)) EmptyString)))
  else String c EmptyString.

Fixpoint escape (q : ascii) (s : string) : string :=
  match s with
  | EmptyString => EmptyString
  | String c r => escape_char q c ++ escape q r
  end.

(** [repr(s)] for a [str] of ASCII text: single quotes, unless the
    text has a single quote and no double quote. *)
Definition repr (s : string) : string :=
  let q := if has_char sq_char s && negb (has_char dq_char s)
           then dq_char else sq_char in
  String q (escape q s ++ String q EmptyString).

Fixpoint join (sep : string) (l : list string) : string :=
  match l with
  | [] => EmptyString
  | [x] => x
  | x :: r => x ++ sep ++ join sep r
  end.

(** [str(d)] for a [dict] of strings, as an f-string renders it:
    the items in insertion order. *)
Definition dict_str (d : list (string * string)) : string :=
  "{" ++ join ", " (map (fun kv => repr (fst kv) ++ ": " ++ repr (snd kv)) d)
      ++ "}".

End PyStr.

(** ** Platform context (class body, lines 15-22) *)

Record Platform : Type := MkPlatform {
  _is_macos : bool;
  _homebrew_path : string
}.

(** [platform.sys.platform] and [platform.machine()] fix the two class
    attributes; on any other system neither is bound and the class body
    fails when [_homebrew_envs] is built. *)
Definition platform_context (sys_platform machine : string) : option Platform :=
  if sys_platform =? "darwin" then
    Some (MkPlatform true
            (if machine =? "arm64" then "/opt/homebrew" else "/usr/local"))
  else if sys_platform =? "linux" then
    Some (MkPlatform false "/home/linuxbrew/.linuxbrew")
  else None.

Definition _brew_directive : string := "brew".
Definition _brewfile_directive : string := "brewfile".
Definition _cask_directive : string := "cask".
Definition _tap_directive : string := "tap".
Definition _install_url : string :=
  "https://raw.githubusercontent.com/Homebrew/install/HEAD/install.sh".

(** [_homebrew_envs]: a dict, kept in insertion order. *)
Definition _homebrew_envs (P : Platform) : list (string * string) :=
  let p := _homebrew_path P in
  [ ("HOMEBREW_PREFIX", p);
    ("HOMEBREW_CELLAR", p ++ "/Cellar");
    ("HOMEBREW_REPOSITORY", p);
    ("PATH", p ++ "/bin:" ++ p ++ "/sbin${PATH+:$PATH}");
    ("MANPATH", p ++ "/share/man${MANPATH+:$MANPATH}:");
    ("INFOPATH", p ++ "/share/info:${INFOPATH:-}") ].

(** [can_handle] *)
Definition can_handle (P : Platform) (directive : string) : bool :=
  let directives := [_tap_directive; _brew_directive; _brewfile_directive] in
  let directives :=
    if _is_macos P then (directives ++ [_cask_directive])%list else directives in
  existsb (String.eqb directive) directives.

(** ** Events, exceptions and the plugin monad *)

Inductive Level : Type := LowInfo | Info | Warning | Error.

(** One [subprocess.run(cmd, shell=True, check=True, capture_output=..,
    cwd=..)] call. *)
Record ShellCall : Type := MkCall {
  sc_cmd : string;
  sc_capture_output : bool;
  sc_cwd : string
}.

(** What the plugin does to the outside, in order. *)
Inductive Event : Type :=
| Logged (lvl : Level) (msg : string)
| Ran (call : ShellCall) (returncode : Z).

Inductive Exc : Type :=
| CalledProcessError (returncode : Z) (cmd : string)
| ValueError (msg : string).

Inductive Outcome (A : Type) : Type :=
| Returned (a : A)
| Raised (e : Exc).
Arguments Returned {A} a.
Arguments Raised {A} e.

(** The subprocess calls among the events: shell string and exit status. *)
Fixpoint invocations (evs : list Event) : list (string * Z) :=
  match evs with
  | [] => []
  | Logged _ _ :: r => invocations r
  | Ran c z :: r => (sc_cmd c, z) :: invocations r
  end.

Fixpoint logged (lvl : Level) (evs : list Event) : list string :=
  match evs with
  | [] => []
  | Logged l m :: r =>
      match l, lvl with
      | LowInfo, LowInfo | Info, Info | Warning, Warning | Error, Error =>
          m :: logged lvl r
      | _, _ => logged lvl r
      end
  | Ran _ _ :: r => logged lvl r
  end.

(** ** The plugin object

    What a [Brew] instance works with: the class attributes fixed by
    the platform, the base directory of its context, Python's rendering
    of a [CalledProcessError], and the outside world its shell commands
    act on. [sh] runs one call to completion and gives its exit status. *)
Record Brew : Type := MkBrew {
  World : Type;
  sh : ShellCall -> World -> Z * World;
  str_error : Z -> string -> string;
  platform : Platform;
  base_directory : string
}.

(** A computation: from a world to an outcome, the new world and the
    events emitted on the way. *)
Definition Proc (self : Brew) (A : Type) : Type :=
  World self -> Outcome A * World self * list Event.

Definition outcome {self A} (r : Outcome A * World self * list Event)
  : Outcome A := fst (fst r).
Definition events {self A} (r : Outcome A * World self * list Event)
  : list Event := snd r.

Section Methods.

Variable self : Brew.

Definition proc_ret {A} (a : A) : Proc self A := fun w => (Returned a, w, []).

Definition proc_bind {A B} (m : Proc self A) (k : A -> Proc self B)
  : Proc self B :=
  fun w =>
    match m w with
    | (Returned a, w1, e1) =>
        match k a w1 with
        | (r, w2, e2) => (r, w2, (e1 ++ e2)%list)
        end
    | (Raised e, w1, e1) => (Raised e, w1, e1)
    end.

#[local] Instance Monad_Proc : Monad (Proc self) :=
  {| ret := @proc_ret; bind := @proc_bind |}.

Definition raise {A} (e : Exc) : Proc self A := fun w => (Raised e, w, []).

Definition log (lvl : Level) (msg : string) : Proc self unit :=
  fun w => (Returned tt, w, [Logged lvl msg]).

(** [try: body / except subprocess.CalledProcessError as e: handler /
    else: orelse]. Only [CalledProcessError] is caught; the handler
    and the else branch run outside the [try]. *)
Definition try_except_else {A B} (body : Proc self A)
    (handler : Z -> string -> Proc self B) (orelse : A -> Proc self B)
  : Proc self B :=
  fun w =>
    match body w with
    | (Returned a, w1, e1) =>
        match orelse a w1 with
        | (r, w2, e2) => (r, w2, (e1 ++ e2)%list)
        end
    | (Raised (CalledProcessError z c), w1, e1) =>
        match handler z c w1 with
        | (r, w2, e2) => (r, w2, (e1 ++ e2)%list)
        end
    | (Raised e, w1, e1) => (Raised e, w1, e1)
    end.

Definition exit_status (call : ShellCall) (w : World self) : Z :=
  fst (sh self call w).
Definition world_after (call : ShellCall) (w : World self) : World self :=
  snd (sh self call w).

(** [subprocess.run] with [check=True], for a command the system
    starts: a non-zero exit status raises. Python refuses a string
    with a NUL character before any process runs; a command that
    exits with a status has been started. *)
Definition subprocess_run (call : ShellCall) : Proc self unit :=
  fun w =>
    let z := exit_status call w in
    ((if (z =? 0)%Z then Returned tt
      else Raised (CalledProcessError z (sc_cmd call))),
     world_after call w, [Ran call z]).

(** The string [_run_cmd] hands to the shell. *)
Definition shell_string (include_envs : bool) (cmd : string) : string :=
  if include_envs
  then "eval " ++ PyStr.dq ++ "$("
         ++ PyStr.dict_str (_homebrew_envs (platform self))
         ++ ")" ++ PyStr.dq ++ " && " ++ cmd
  else cmd.

(** [_run_cmd]; the [CompletedProcess] it returns is never looked at. *)
Definition _run_cmd (cmd : string) (capture_output include_envs : bool)
  : Proc self unit :=
  let cmd := shell_string include_envs cmd in
  log LowInfo cmd ;;
  subprocess_run (MkCall cmd capture_output (base_directory self)).

Definition _bootstrap_brew : Proc self unit :=
  try_except_else
    (_run_cmd ("/bin/bash -c " ++ PyStr.dq ++ "$(curl -fsSL " ++ _install_url
                 ++ ")" ++ PyStr.dq) true false)
    (fun _ _ => log Warning "Brew could not be installed")
    (fun _ =>
       log Info "Updating brew" ;;
       try_except_else (_run_cmd "brew update" true true)
         (fun _ _ => log Warning "Brew could not be updated")
         (fun _ => ret tt)).

Fixpoint _tap (tap_list : list string) : Proc self bool :=
  match tap_list with
  | [] => ret true
  | tap :: rest =>
      log Info ("Tapping " ++ tap) ;;
      try_except_else (_run_cmd ("brew tap " ++ tap) true true)
        (fun z c =>
           log Warning ("Failed to tap [" ++ tap ++ "] - "
                          ++ str_error self z c) ;;
           ret false)
        (fun _ => _tap rest)
  end.

(** The [for] loop of [_install], [cask_flag] being set before it. *)
Fixpoint install_loop (install_cmd cask_flag : string)
    (packages_list : list string) : Proc self bool :=
  match packages_list with
  | [] => ret true
  | package :: rest =>
      try_except_else
        (_run_cmd ("brew ls --versions " ++ cask_flag ++ " " ++ package)
           true true)
        (fun _ _ =>
           log Info ("Installing " ++ package) ;;
           try_except_else
             (_run_cmd (install_cmd ++ " " ++ cask_flag ++ " " ++ package)
                true true)
             (fun z c =>
                log Warning ("Failed to install [" ++ package ++ "] - "
                               ++ str_error self z c) ;;
                ret false)
             (fun _ => install_loop install_cmd cask_flag rest))
        (fun _ => install_loop install_cmd cask_flag rest)
  end.

Definition _install (install_cmd : string) (packages_list : list string)
  : Proc self bool :=
  let cask_flag :=
    if negb (install_cmd =? "brew install") then "--cask" else "" in
  install_loop install_cmd cask_flag packages_list.

Definition _process_data (install_cmd : string) (data : list string)
  : Proc self bool :=
  let install_type :=
    if PyStr.contains "--cask" install_cmd then "casks" else "formulae" in
  success <- _install install_cmd data ;;
  (if success : bool
   then log Info ("All brew " ++ install_type ++ " have been installed")
   else log Error ("Some brew " ++ install_type ++ " were not installed")) ;;
  ret success.

Fixpoint _install_bundle (brew_files : list string) : Proc self bool :=
  match brew_files with
  | [] => ret true
  | brew_file :: rest =>
      log Info ("Installing from file " ++ brew_file) ;;
      try_except_else (_run_cmd ("brew bundle --file=" ++ brew_file) true true)
        (fun z c =>
           log Warning ("Failed to install file [" ++ brew_file ++ "] - "
                          ++ str_error self z c) ;;
           ret false)
        (fun _ => _install_bundle rest)
  end.

(** The first [try] of [handle]: look for the binary, bootstrap it
    when the lookup fails. *)
Definition ensure_brew : Proc self unit :=
  try_except_else (_run_cmd "hash brew" false true)
    (fun _ _ => log Info "Brew not found, installing" ;; _bootstrap_brew)
    (fun _ => ret tt).

(** The [if self._is_macos] step of [handle]. *)
Definition required_tap : Proc self unit :=
  if _is_macos (platform self)
  then _run_cmd "brew tap homebrew/cask" true true
  else ret tt.

(** The [match directive] of [handle]; [None] is Python's [None],
    the value of a call in which no [case] applies. *)
Definition dispatch (directive : string) (data : list string)
  : Proc self (option bool) :=
  if directive =? _tap_directive then
    b <- _tap data ;; ret (Some b)
  else if directive =? _brew_directive then
    b <- _process_data "brew install" data ;; ret (Some b)
  else if directive =? _cask_directive then
    b <- _process_data "brew install --cask" data ;; ret (Some b)
  else if directive =? _brewfile_directive then
    b <- _install_bundle data ;; ret (Some b)
  else ret None.

Definition handle (directive : string) (data : list string)
  : Proc self (option bool) :=
  if negb (can_handle (platform self) directive)
  then raise (ValueError ("Brew cannot handle directive " ++ directive))
  else ensure_brew ;; required_tap ;; dispatch directive data.

End Methods.

Arguments proc_ret {self A} a.
Arguments proc_bind {self A B} m k.
Arguments raise {self A} e.
Arguments try_except_else {self A B} body handler orelse.

(** ** Concrete machines for the examples *)

(** [str(e)] as Python's [subprocess] module words it for an exit
    status that is not negative, the only kind the shells below give;
    a negative one (death by signal) is worded as Python does for a
    signal that has no name. *)
Definition py_str_error (z : Z) (cmd : string) : string :=
  if (z <? 0)%Z
  then "Command '" ++ cmd ++ "' died with unknown signal "
         ++ DecimalString.NilZero.string_of_int (Z.to_int (- z)) ++ "."
  else "Command '" ++ cmd ++ "' returned non-zero exit status "
         ++ DecimalString.NilZero.string_of_int (Z.to_int z) ++ ".".

(** A shell without state: a command exits with status 1 when its text
    has one of the fragments [bad], with status 0 otherwise. *)
Definition scripted (bad : list string) (call : ShellCall) (w : unit)
  : Z * unit :=
  (if existsb (fun b => PyStr.contains b (sc_cmd call)) bad then 1%Z else 0%Z,
   w).

Definition linux : Platform := MkPlatform false "/home/linuxbrew/.linuxbrew".
Definition macos_arm64 : Platform := MkPlatform true "/opt/homebrew".

Definition plugin (P : Platform) (bad : list string) : Brew :=
  MkBrew unit (scripted bad) py_str_error P "/home/me/dotfiles".

(** The six names of [brew shellenv]. *)
Definition shellenv_names : list string :=
  ["HOMEBREW_PREFIX"; "HOMEBREW_CELLAR"; "HOMEBREW_REPOSITORY";
   "PATH"; "MANPATH"; "INFOPATH"].

(** ** Reading a run *)

(** The call [_run_cmd] makes for [cmd] with its default arguments. *)
Definition brew_call (self : Brew) (cmd : string) : ShellCall :=
  MkCall (shell_string self true cmd) true (base_directory self).

(** The bootstrap command of [_bootstrap_brew], run without the
    environment prefix. *)
Definition install_script : string :=
  "/bin/bash -c " ++ PyStr.dq ++ "$(curl -fsSL " ++ _install_url ++ ")"
    ++ PyStr.dq.

Definition install_script_call (self : Brew) : ShellCall :=
  MkCall install_script true (base_directory self).

(** The shell strings of the per-item commands. *)
Definition tap_cmd (self : Brew) (tap : string) : string :=
  shell_string self true ("brew tap " ++ tap).
Definition bundle_cmd (self : Brew) (brew_file : string) : string :=
  shell_string self true ("brew bundle --file=" ++ brew_file).
Definition query_cmd (self : Brew) (flag package : string) : string :=
  shell_string self true ("brew ls --versions " ++ flag ++ " " ++ package).
Definition install_cmd_of (self : Brew) (install_cmd flag package : string)
  : string :=
  shell_string self true (install_cmd ++ " " ++ flag ++ " " ++ package).

(** The flag [_install] derives from its [install_cmd]. *)
Definition cask_flag_of (install_cmd : string) : string :=
  if negb (install_cmd =? "brew install") then "--cask" else "".

(** The shell strings of the subprocess calls among the events. *)
Definition commands (evs : list Event) : list string :=
  map fst (invocations evs).

(** Every item of [l] had its command [mk item] handed to the shell. *)
Definition attempts_all (mk : string -> string) (l : list string)
    (evs : list Event) : Prop :=
  forall x, In x l -> In (mk x) (commands evs).

(** A run of [_install] in which every package ended up installed:
    found by the version query, or installed after the query failed. *)
Inductive installs_ok (self : Brew) (install_cmd flag : string)
  : list string -> list (string * Z) -> Prop :=
| installs_nil : installs_ok self install_cmd flag [] []
| installs_present p l t :
    installs_ok self install_cmd flag l t ->
    installs_ok self install_cmd flag (p :: l)
      ((query_cmd self flag p, 0%Z) :: t)
| installs_absent p l t z :
    z <> 0%Z ->
    installs_ok self install_cmd flag l t ->
    installs_ok self install_cmd flag (p :: l)
      ((query_cmd self flag p, z)
         :: (install_cmd_of self install_cmd flag p, 0%Z) :: t).

(** A loop that stops at the first failing item: either every item's
    command [mk item] ran with status 0 and the result is true, or the
    items before some [x] ran with status 0, the command of [x] ran
    with a non-zero status, nothing ran after it, and the result is
    false. *)
Definition short_circuits (mk : string -> string) (l : list string)
    (b : bool) (evs : list Event) : Prop :=
  (b = true /\ invocations evs = map (fun x => (mk x, 0%Z)) l)
  \/ (b = false /\
      exists l1 x l2 z,
        l = (l1 ++ x :: l2)%list /\ z <> 0%Z /\
        invocations evs = (map (fun x => (mk x, 0%Z)) l1 ++ [(mk x, z)])%list).

(** The same for [_install]: the packages before [x] ended up
    installed, the version query and the install command of [x] both
    failed, and nothing ran after them. *)
Definition install_short_circuits (self : Brew) (install_cmd flag : string)
    (l : list string) (b : bool) (evs : list Event) : Prop :=
  (b = true /\ installs_ok self install_cmd flag l (invocations evs))
  \/ (b = false /\
      exists l1 x l2 t1 zq zi,
        l = (l1 ++ x :: l2)%list /\
        installs_ok self install_cmd flag l1 t1 /\ zq <> 0%Z /\ zi <> 0%Z /\
        invocations evs =
          (t1 ++ [(query_cmd self flag x, zq);
                  (install_cmd_of self install_cmd flag x, zi)])%list).

(** How a handler reports: no warning when it returns true, one
    warning, starting with "Failed to ", when it returns false. *)
Definition reports (b : bool) (evs : list Event) : Prop :=
  (b = true /\ logged Warning evs = [])
  \/ (b = false /\
      exists m, logged Warning evs = [m]
                /\ String.prefix "Failed to " m = true).

Definition no_failure_warning (evs : list Event) : Prop :=
  forall m, In m (logged Warning evs) -> String.prefix "Failed to " m = false.

(** The call of the macOS step of [handle]. *)
Definition required_tap_call (self : Brew) : ShellCall :=
  brew_call self "brew tap homebrew/cask".

(** The text [_run_cmd] puts before a command. *)
Definition env_prefix (self : Brew) : string :=
  "eval " ++ PyStr.dq ++ "$("
    ++ PyStr.dict_str (_homebrew_envs (platform self))
    ++ ")" ++ PyStr.dq ++ " && ".

(** A shell assigns a variable through a word [name=value]: the least
    a text that sets [name] has to contain. *)
Definition assigns_in_shell (name text : string) : bool :=
  PyStr.contains (name ++ "=") text.

(** Every subprocess that exits with a non-zero status shows up as a
    warning and a false result. *)
Definition failures_reported {self : Brew}
    (r : Outcome (option bool) * World self * list Event) : Prop :=
  forall c z, In (c, z) (invocations (events r)) -> z <> 0%Z ->
              outcome r = Returned (Some false)
              /\ logged Warning (events r) <> [].

(** The call of the first step of [handle], its output not captured. *)
Definition hash_brew_call (self : Brew) : ShellCall :=
  MkCall (shell_string self true "hash brew") false (base_directory self).

(** The calls the plugin makes: the install script, alone without the
    environment prefix; [hash brew], alone with its output left to the
    terminal; any other command, prefixed and captured. All of them run
    in the base directory. *)
Definition conforms (self : Brew) (ev : Event) : Prop :=
  match ev with
  | Logged _ _ => True
  | Ran call _ =>
      sc_cwd call = base_directory self
      /\ (call = install_script_call self
          \/ call = hash_brew_call self
          \/ exists cmd, call = brew_call self cmd)
  end.

(** The line [_process_data] ends with. *)
Definition process_data_line (install_cmd : string) (success : bool) : Event :=
  let install_type :=
    if PyStr.contains "--cask" install_cmd then "casks" else "formulae" in
  if success
  then Logged Info ("All brew " ++ install_type ++ " have been installed")
  else Logged Error ("Some brew " ++ install_type ++ " were not installed").

(** The error lines of a directive's result. *)
Definition error_lines_of (d : string) (b : bool) : list string :=
  if b then []
  else if d =? "brew" then ["Some brew formulae were not installed"]
  else if d =? "cask" then ["Some brew casks were not installed"]
  else [].

(** ** Reading the shell

    What a run over a list meets, read off the shell alone: the exit
    statuses of the commands of the items, each in the world left by
    the commands before it. *)

(** The commands [mk x] of the items of [l], run one after the other
    from [w], all exit with status 0. *)
Fixpoint all_exit_zero (self : Brew) (mk : string -> string)
    (l : list string) (w : World self) : Prop :=
  match l with
  | [] => True
  | x :: rest =>
      exit_status self (brew_call self (mk x)) w = 0%Z
      /\ all_exit_zero self mk rest (world_after self (brew_call self (mk x)) w)
  end.

(** The world these commands leave. *)
Fixpoint world_after_all (self : Brew) (mk : string -> string)
    (l : list string) (w : World self) : World self :=
  match l with
  | [] => w
  | x :: rest =>
      world_after_all self mk rest (world_after self (brew_call self (mk x)) w)
  end.

(** Every package of [l] ends up installed: its version query exits
    with status 0, or its install command does after a query that did
    not. *)
Fixpoint all_installed (self : Brew) (install_cmd flag : string)
    (l : list string) (w : World self) : Prop :=
  match l with
  | [] => True
  | p :: rest =>
      let query := brew_call self ("brew ls --versions " ++ flag ++ " " ++ p) in
      let inst := brew_call self (install_cmd ++ " " ++ flag ++ " " ++ p) in
      let w1 := world_after self query w in
      if (exit_status self query w =? 0)%Z
      then all_installed self install_cmd flag rest w1
      else exit_status self inst w1 = 0%Z
           /\ all_installed self install_cmd flag rest (world_after self inst w1)
  end.

(** The world such a run leaves, and its commands with their statuses. *)
Fixpoint world_after_installed (self : Brew) (install_cmd flag : string)
    (l : list string) (w : World self) : World self :=
  match l with
  | [] => w
  | p :: rest =>
      let query := brew_call self ("brew ls --versions " ++ flag ++ " " ++ p) in
      let inst := brew_call self (install_cmd ++ " " ++ flag ++ " " ++ p) in
      let w1 := world_after self query w in
      if (exit_status self query w =? 0)%Z
      then world_after_installed self install_cmd flag rest w1
      else world_after_installed self install_cmd flag rest
             (world_after self inst w1)
  end.

Fixpoint install_trace (self : Brew) (install_cmd flag : string)
    (l : list string) (w : World self) : list (string * Z) :=
  match l with
  | [] => []
  | p :: rest =>
      let query := brew_call self ("brew ls --versions " ++ flag ++ " " ++ p) in
      let inst := brew_call self (install_cmd ++ " " ++ flag ++ " " ++ p) in
      let w1 := world_after self query w in
      if (exit_status self query w =? 0)%Z
      then (sc_cmd query, 0%Z) :: install_trace self install_cmd flag rest w1
      else (sc_cmd query, exit_status self query w)
             :: (sc_cmd inst, exit_status self inst w1)
             :: install_trace self install_cmd flag rest
                  (world_after self inst w1)
  end.

(** The same by directive, for the list [handle] is given. *)
Definition items_succeed (self : Brew) (d : string) (l : list string)
    (w : World self) : Prop :=
  if d =? _tap_directive then all_exit_zero self (append "brew tap ") l w
  else if d =? _brew_directive then all_installed self "brew install" "" l w
  else if d =? _cask_directive
  then all_installed self "brew install --cask" "--cask" l w
  else all_exit_zero self (append "brew bundle --file=") l w.

Definition world_after_items (self : Brew) (d : string) (l : list string)
    (w : World self) : World self :=
  if d =? _tap_directive then world_after_all self (append "brew tap ") l w
  else if d =? _brew_directive
  then world_after_installed self "brew install" "" l w
  else if d =? _cask_directive
  then world_after_installed self "brew install --cask" "--cask" l w
  else world_after_all self (append "brew bundle --file=") l w.

(** The failure of one item in the world [w]: the command that makes
    the handler give up on [x] and its non-zero exit status. A tap or
    a bundle file fails with its one command; a package fails with its
    install command, run after a version query that failed too. *)
Definition install_failure (self : Brew) (install_cmd flag x : string)
    (w : World self) : option (string * Z) :=
  let query := brew_call self ("brew ls --versions " ++ flag ++ " " ++ x) in
  let inst := brew_call self (install_cmd ++ " " ++ flag ++ " " ++ x) in
  let w1 := world_after self query w in
  if (exit_status self query w =? 0)%Z then None
  else if (exit_status self inst w1 =? 0)%Z then None
  else Some (sc_cmd inst, exit_status self inst w1).

Definition command_failure (self : Brew) (cmd : string) (w : World self)
  : option (string * Z) :=
  let call := brew_call self cmd in
  if (exit_status self call w =? 0)%Z then None
  else Some (sc_cmd call, exit_status self call w).

Definition item_failure (self : Brew) (d x : string) (w : World self)
  : option (string * Z) :=
  if d =? _tap_directive then command_failure self ("brew tap " ++ x) w
  else if d =? _brew_directive then install_failure self "brew install" "" x w
  else if d =? _cask_directive
  then install_failure self "brew install --cask" "--cask" x w
  else command_failure self ("brew bundle --file=" ++ x) w.

(** The warning a handler words for the failure of [x]. *)
Definition failure_warning (self : Brew) (d x : string) (failed : string * Z)
  : string :=
  (if d =? _tap_directive then "Failed to tap ["
   else if d =? _brewfile_directive then "Failed to install file ["
   else "Failed to install [")
    ++ x ++ "] - " ++ str_error self (snd failed) (fst failed).

(** The warnings of a run that report a failed item. *)
Definition failure_warnings (evs : list Event) : list string :=
  filter (String.prefix "Failed to ") (logged Warning evs).

(** ** The platform and the supported directives *)

Lemma platform_context_cases sys_platform machine P :
  platform_context sys_platform machine = Some P ->
  P = MkPlatform true "/opt/homebrew" \/ P = MkPlatform true "/usr/local"
  \/ P = linux.
Proof.
  unfold platform_context.
  destruct (sys_platform =? "darwin").
  - destruct (machine =? "arm64"); intros [= <-]; auto.
  - destruct (sys_platform =? "linux"); [intros [= <-]; auto | discriminate].
Qed.

Lemma platform_context_examples :
  platform_context "linux" "x86_64" = Some linux
  /\ platform_context "darwin" "arm64" = Some macos_arm64
  /\ platform_context "darwin" "x86_64" = Some (MkPlatform true "/usr/local")
  /\ platform_context "win32" "AMD64" = None.
Proof. repeat split. Qed.

Lemma can_handle_cases (P : Platform) (d : string) :
  can_handle P d = true <->
  d = "tap" \/ d = "brew" \/ d = "brewfile" \/ (_is_macos P = true /\ d = "cask").
Proof.
  unfold can_handle. destruct (_is_macos P); simpl;
    rewrite ?orb_true_iff, ?String.eqb_eq; intuition congruence.
Qed.

(** C6: [can_handle d] holds exactly for tap, brew, brewfile and, on
    macOS only, cask; so it is false for cask off macOS and for every
    other string. It is a function of the platform and the directive
    alone: it looks at no world and emits no event. *)
Theorem can_handle_iff (P : Platform) (d : string) :
  (can_handle P d = true <->
   d = _tap_directive \/ d = _brew_directive \/ d = _brewfile_directive
   \/ (_is_macos P = true /\ d = _cask_directive))
  /\ (can_handle P d = false <->
      d <> "tap" /\ d <> "brew" /\ d <> "brewfile"
      /\ (_is_macos P = false \/ d <> "cask")).
Proof.
  split; [apply can_handle_cases|].
  rewrite <- not_true_iff_false, can_handle_cases.
  destruct (_is_macos P); destruct (string_dec d "cask");
    intuition congruence.
Qed.

Lemma can_handle_cask_linux : can_handle linux "cask" = false.
Proof. reflexivity. Qed.

(** ** One step of each method *)

Section Steps.

Variable self : Brew.

Lemma invocations_app (e1 e2 : list Event) :
  invocations (e1 ++ e2) = (invocations e1 ++ invocations e2)%list.
Proof.
  induction e1 as [|[l m|c z] e1 IH]; simpl; [reflexivity | exact IH |].
  now rewrite IH.
Qed.

Lemma logged_app (lvl : Level) (e1 e2 : list Event) :
  logged lvl (e1 ++ e2) = (logged lvl e1 ++ logged lvl e2)%list.
Proof.
  induction e1 as [|[l m|c z] e1 IH]; simpl; [reflexivity | | exact IH].
  destruct l, lvl; simpl; congruence.
Qed.

(** [_run_cmd] logs the shell string, runs it, and raises exactly
    when the exit status is not zero. *)
Lemma run_cmd_run (cmd : string) (cap env : bool) (w : World self) :
  _run_cmd self cmd cap env w =
  let call := MkCall (shell_string self env cmd) cap (base_directory self) in
  let z := exit_status self call w in
  (if (z =? 0)%Z then Returned tt
   else Raised (CalledProcessError z (sc_cmd call)),
   world_after self call w,
   [Logged LowInfo (sc_cmd call); Ran call z]).
Proof. reflexivity. Qed.

Lemma tap_cons (tap : string) (rest : list string) (w : World self) :
  _tap self (tap :: rest) w =
  let call := brew_call self ("brew tap " ++ tap) in
  let z := exit_status self call w in
  let pre := [Logged Info ("Tapping " ++ tap);
              Logged LowInfo (sc_cmd call); Ran call z] in
  if (z =? 0)%Z then
    match _tap self rest (world_after self call w) with
    | (r, w2, e2) => (r, w2, (pre ++ e2)%list)
    end
  else
    (Returned false, world_after self call w,
     (pre ++ [Logged Warning ("Failed to tap [" ++ tap ++ "] - "
                                ++ str_error self z (sc_cmd call))])%list).
Proof.
  cbn [_tap]. unfold bind, Monad_Proc, proc_bind, log, try_except_else.
  rewrite run_cmd_run. cbv zeta. fold (brew_call self ("brew tap " ++ tap)).
  destruct (exit_status self (brew_call self ("brew tap " ++ tap)) w =? 0)%Z.
  - destruct (_tap self rest _) as [[r w2] e2]. reflexivity.
  - reflexivity.
Qed.

Lemma bundle_cons (brew_file : string) (rest : list string) (w : World self) :
  _install_bundle self (brew_file :: rest) w =
  let call := brew_call self ("brew bundle --file=" ++ brew_file) in
  let z := exit_status self call w in
  let pre := [Logged Info ("Installing from file " ++ brew_file);
              Logged LowInfo (sc_cmd call); Ran call z] in
  if (z =? 0)%Z then
    match _install_bundle self rest (world_after self call w) with
    | (r, w2, e2) => (r, w2, (pre ++ e2)%list)
    end
  else
    (Returned false, world_after self call w,
     (pre ++ [Logged Warning ("Failed to install file [" ++ brew_file
                                ++ "] - " ++ str_error self z (sc_cmd call))])%list).
Proof.
  cbn [_install_bundle].
  unfold bind, Monad_Proc, proc_bind, log, try_except_else.
  rewrite run_cmd_run. cbv zeta.
  fold (brew_call self ("brew bundle --file=" ++ brew_file)).
  destruct (exit_status self _ w =? 0)%Z.
  - destruct (_install_bundle self rest _) as [[r w2] e2]. reflexivity.
  - reflexivity.
Qed.

Lemma install_loop_cons (install_cmd flag package : string)
    (rest : list string) (w : World self) :
  install_loop self install_cmd flag (package :: rest) w =
  let q := brew_call self ("brew ls --versions " ++ flag ++ " " ++ package) in
  let zq := exit_status self q w in
  let w1 := world_after self q w in
  let pre := [Logged LowInfo (sc_cmd q); Ran q zq] in
  if (zq =? 0)%Z then
    match install_loop self install_cmd flag rest w1 with
    | (r, w2, e2) => (r, w2, (pre ++ e2)%list)
    end
  else
    let i := brew_call self (install_cmd ++ " " ++ flag ++ " " ++ package) in
    let zi := exit_status self i w1 in
    let w2 := world_after self i w1 in
    let mid := (pre ++ [Logged Info ("Installing " ++ package);
                        Logged LowInfo (sc_cmd i); Ran i zi])%list in
    if (zi =? 0)%Z then
      match install_loop self install_cmd flag rest w2 with
      | (r, w3, e3) => (r, w3, (mid ++ e3)%list)
      end
    else
      (Returned false, w2,
       (mid ++ [Logged Warning ("Failed to install [" ++ package ++ "] - "
                                  ++ str_error self zi (sc_cmd i))])%list).
Proof.
  cbn [install_loop].
  unfold bind, Monad_Proc, proc_bind, log, try_except_else.
  rewrite run_cmd_run. cbv zeta.
  fold (brew_call self ("brew ls --versions " ++ flag ++ " " ++ package)).
  destruct (exit_status self _ w =? 0)%Z.
  - destruct (install_loop self install_cmd flag rest _) as [[r w2] e2].
    reflexivity.
  - rewrite run_cmd_run. cbv zeta.
    fold (brew_call self (install_cmd ++ " " ++ flag ++ " " ++ package)).
    destruct (exit_status self _ (world_after self _ w) =? 0)%Z.
    + destruct (install_loop self install_cmd flag rest _) as [[r w3] e3].
      reflexivity.
    + reflexivity.
Qed.

Lemma bootstrap_run (w : World self) :
  _bootstrap_brew self w =
  let s := install_script_call self in
  let zs := exit_status self s w in
  let w1 := world_after self s w in
  let pre := [Logged LowInfo (sc_cmd s); Ran s zs] in
  if (zs =? 0)%Z then
    let u := brew_call self "brew update" in
    let zu := exit_status self u w1 in
    (Returned tt, world_after self u w1,
     (pre ++ [Logged Info "Updating brew"; Logged LowInfo (sc_cmd u); Ran u zu]
          ++ (if (zu =? 0)%Z then []
              else [Logged Warning "Brew could not be updated"]))%list)
  else
    (Returned tt, w1,
     (pre ++ [Logged Warning "Brew could not be installed"])%list).
Proof.
  unfold _bootstrap_brew, bind, Monad_Proc, proc_bind, log, try_except_else.
  rewrite run_cmd_run. cbv zeta.
  change (MkCall (shell_string self false _) true (base_directory self))
    with (install_script_call self).
  destruct (exit_status self (install_script_call self) w =? 0)%Z.
  - rewrite run_cmd_run. cbv zeta. fold (brew_call self "brew update").
    destruct (exit_status self (brew_call self "brew update") _ =? 0)%Z;
      reflexivity.
  - reflexivity.
Qed.

Lemma ensure_brew_run (w : World self) :
  ensure_brew self w =
  let h := MkCall (shell_string self true "hash brew") false
             (base_directory self) in
  let zh := exit_status self h w in
  let w1 := world_after self h w in
  let pre := [Logged LowInfo (sc_cmd h); Ran h zh] in
  if (zh =? 0)%Z then (Returned tt, w1, pre)
  else
    match _bootstrap_brew self w1 with
    | (r, w2, e2) =>
        (r, w2, (pre ++ Logged Info "Brew not found, installing" :: e2)%list)
    end.
Proof.
  unfold ensure_brew, bind, Monad_Proc, proc_bind, log, try_except_else.
  rewrite run_cmd_run. cbv zeta.
  destruct (exit_status self _ w =? 0)%Z.
  - reflexivity.
  - destruct (_bootstrap_brew self _) as [[[[]|e] w2] e2]; reflexivity.
Qed.

End Steps.

(** ** The per-directive handlers *)

Section Handlers.

Variable self : Brew.

Ltac step_status :=
  cbv zeta;
  match goal with
  | |- context [(exit_status self ?c ?w =? 0)%Z] =>
      let E := fresh "E" in
      destruct (Z.eqb_spec (exit_status self c w) 0) as [E|E]
  end.

Lemma tap_spec (l : list string) :
  forall w, exists b w' evs,
    _tap self l w = (Returned b, w', evs)
    /\ short_circuits (tap_cmd self) l b evs /\ reports b evs.
Proof.
  induction l as [|x l IH]; intros w.
  - exists true, w, []. repeat split; left; split; reflexivity.
  - rewrite tap_cons. step_status.
    + destruct (IH (world_after self (brew_call self ("brew tap " ++ x)) w))
        as (b & w' & evs & -> & Hs & Hr).
      exists b, w', (Logged Info ("Tapping " ++ x)
                      :: Logged LowInfo (tap_cmd self x)
                      :: Ran (brew_call self ("brew tap " ++ x)) 0 :: evs).
      split; [now rewrite E |]. split.
      * destruct Hs as [[-> Hi]|(-> & l1 & y & l2 & z & -> & Hz & Hi)].
        -- left. split; [reflexivity|]. cbn [invocations map]. now rewrite Hi.
        -- right. split; [reflexivity|].
           exists (x :: l1), y, l2, z. repeat split; trivial.
           cbn [invocations map app]. now rewrite Hi.
      * destruct Hr as [[-> Hw]|(-> & m & Hw & Hm)].
        -- left. now split.
        -- right. split; [reflexivity|]. now exists m.
    + eexists false, _, _. split; [reflexivity|]. split.
      * right. split; [reflexivity|].
        exists [], x, l, (exit_status self (brew_call self ("brew tap " ++ x)) w).
        repeat split; trivial.
      * right. split; [reflexivity|]. eexists. split; reflexivity.
Qed.

Lemma bundle_spec (l : list string) :
  forall w, exists b w' evs,
    _install_bundle self l w = (Returned b, w', evs)
    /\ short_circuits (bundle_cmd self) l b evs /\ reports b evs.
Proof.
  induction l as [|x l IH]; intros w.
  - exists true, w, []. repeat split; left; split; reflexivity.
  - rewrite bundle_cons. step_status.
    + destruct (IH (world_after self
                      (brew_call self ("brew bundle --file=" ++ x)) w))
        as (b & w' & evs & -> & Hs & Hr).
      exists b, w', (Logged Info ("Installing from file " ++ x)
                      :: Logged LowInfo (bundle_cmd self x)
                      :: Ran (brew_call self ("brew bundle --file=" ++ x)) 0
                      :: evs).
      split; [now rewrite E |]. split.
      * destruct Hs as [[-> Hi]|(-> & l1 & y & l2 & z & -> & Hz & Hi)].
        -- left. split; [reflexivity|]. cbn [invocations map]. now rewrite Hi.
        -- right. split; [reflexivity|].
           exists (x :: l1), y, l2, z. repeat split; trivial.
           cbn [invocations map app]. now rewrite Hi.
      * destruct Hr as [[-> Hw]|(-> & m & Hw & Hm)].
        -- left. now split.
        -- right. split; [reflexivity|]. now exists m.
    + eexists false, _, _. split; [reflexivity|]. split.
      * right. split; [reflexivity|].
        exists [], x, l,
          (exit_status self (brew_call self ("brew bundle --file=" ++ x)) w).
        repeat split; trivial.
      * right. split; [reflexivity|]. eexists. split; reflexivity.
Qed.

Lemma install_loop_spec (install_cmd flag : string) (l : list string) :
  forall w, exists b w' evs,
    install_loop self install_cmd flag l w = (Returned b, w', evs)
    /\ install_short_circuits self install_cmd flag l b evs
    /\ reports b evs.
Proof.
  induction l as [|x l IH]; intros w.
  - exists true, w, []. repeat split; left; split;
      [reflexivity | constructor | reflexivity | reflexivity].
  - rewrite install_loop_cons. step_status; [|step_status].
    + destruct (IH (world_after self
                      (brew_call self ("brew ls --versions " ++ flag ++ " " ++ x))
                      w))
        as (b & w' & evs & -> & Hs & Hr).
      eexists b, w', _. split; [reflexivity|]. rewrite E. split.
      * destruct Hs as [[-> Hi]
                       |(-> & l1 & y & l2 & t1 & zq & zi & -> & H1 & Hq & Hz & Hi)].
        -- left. split; [reflexivity|]. cbn [invocations app].
           exact (installs_present self install_cmd flag x l _ Hi).
        -- right. split; [reflexivity|].
           exists (x :: l1), y, l2, ((query_cmd self flag x, 0%Z) :: t1), zq, zi.
           repeat split; trivial;
             [exact (installs_present self install_cmd flag x l1 _ H1)|].
           cbn [invocations app]. now rewrite Hi.
      * destruct Hr as [[-> Hw]|(-> & m & Hw & Hm)].
        -- left. now split.
        -- right. split; [reflexivity|]. now exists m.
    + match goal with
      | |- context [install_loop self install_cmd flag l ?w2] =>
          destruct (IH w2) as (b & w' & evs & -> & Hs & Hr)
      end.
      eexists b, w', _. split; [reflexivity|]. rewrite E0. split.
      * destruct Hs as [[-> Hi]
                       |(-> & l1 & y & l2 & t1 & zq & zi & -> & H1 & Hq & Hz & Hi)].
        -- left. split; [reflexivity|]. cbn [invocations app].
           exact (installs_absent self install_cmd flag x l _ _ E Hi).
        -- right. split; [reflexivity|].
           eexists (x :: l1), y, l2, (_ :: _ :: t1), zq, zi.
           repeat split; trivial;
             [exact (installs_absent self install_cmd flag x l1 _ _ E H1)|].
           cbn [invocations app]. now rewrite Hi.
      * destruct Hr as [[-> Hw]|(-> & m & Hw & Hm)].
        -- left. now split.
        -- right. split; [reflexivity|]. now exists m.
    + eexists false, _, _. split; [reflexivity|]. split.
      * right. split; [reflexivity|].
        eexists [], x, l, [], _, _.
        repeat split; [constructor | eassumption | eassumption].
      * right. split; [reflexivity|]. eexists. split; reflexivity.
Qed.

Lemma install_spec (install_cmd : string) (l : list string) (w : World self) :
  exists b w' evs,
    _install self install_cmd l w = (Returned b, w', evs)
    /\ install_short_circuits self install_cmd (cask_flag_of install_cmd) l b evs
    /\ reports b evs.
Proof. apply install_loop_spec. Qed.

(** [_process_data] adds one line, at level info or error, to what
    [_install] does. *)
Lemma process_data_run (install_cmd : string) (l : list string)
    (w : World self) :
  exists b w' evs line,
    _install self install_cmd l w = (Returned b, w', evs)
    /\ _process_data self install_cmd l w
       = (Returned b, w', (evs ++ [line])%list)
    /\ (line = Logged Info ("All brew "
                             ++ (if PyStr.contains "--cask" install_cmd
                                 then "casks" else "formulae")
                             ++ " have been installed")
        \/ line = Logged Error ("Some brew "
                                 ++ (if PyStr.contains "--cask" install_cmd
                                     then "casks" else "formulae")
                                 ++ " were not installed")).
Proof.
  destruct (install_spec install_cmd l w) as (b & w' & evs & Hi & _).
  exists b, w', evs.
  unfold _process_data, bind, Monad_Proc, proc_bind, ret, proc_ret.
  rewrite Hi. destruct b; cbn [log]; eexists; (split; [reflexivity|]);
    (split; [reflexivity|]); [left | right]; reflexivity.
Qed.


(** Processing a list in two parts. *)
Lemma tap_app (l1 l2 : list string) :
  forall w,
    _tap self (l1 ++ l2) w =
    match _tap self l1 w with
    | (Returned true, w1, e1) =>
        match _tap self l2 w1 with
        | (r, w2, e2) => (r, w2, (e1 ++ e2)%list)
        end
    | other => other
    end.
Proof.
  induction l1 as [|x l1 IH]; intros w.
  - cbn [app _tap ret Monad_Proc proc_ret].
    destruct (_tap self l2 w) as [[r w2] e2]. reflexivity.
  - cbn [app]. rewrite !tap_cons. step_status; [|reflexivity].
    rewrite IH.
    destruct (_tap self l1 _) as [[[[|]|e] w1] e1]; try reflexivity.
    destruct (_tap self l2 w1) as [[r w2] e2]. reflexivity.
Qed.

Lemma bundle_app (l1 l2 : list string) :
  forall w,
    _install_bundle self (l1 ++ l2) w =
    match _install_bundle self l1 w with
    | (Returned true, w1, e1) =>
        match _install_bundle self l2 w1 with
        | (r, w2, e2) => (r, w2, (e1 ++ e2)%list)
        end
    | other => other
    end.
Proof.
  induction l1 as [|x l1 IH]; intros w.
  - cbn [app _install_bundle ret Monad_Proc proc_ret].
    destruct (_install_bundle self l2 w) as [[r w2] e2]. reflexivity.
  - cbn [app]. rewrite !bundle_cons. step_status; [|reflexivity].
    rewrite IH.
    destruct (_install_bundle self l1 _) as [[[[|]|e] w1] e1]; try reflexivity.
    destruct (_install_bundle self l2 w1) as [[r w2] e2]. reflexivity.
Qed.

Lemma install_loop_app (install_cmd flag : string) (l1 l2 : list string) :
  forall w,
    install_loop self install_cmd flag (l1 ++ l2) w =
    match install_loop self install_cmd flag l1 w with
    | (Returned true, w1, e1) =>
        match install_loop self install_cmd flag l2 w1 with
        | (r, w2, e2) => (r, w2, (e1 ++ e2)%list)
        end
    | other => other
    end.
Proof.
  induction l1 as [|x l1 IH]; intros w.
  - cbn [app install_loop ret Monad_Proc proc_ret].
    destruct (install_loop self install_cmd flag l2 w) as [[r w2] e2].
    reflexivity.
  - cbn [app]. rewrite !install_loop_cons.
    step_status; [|step_status; [|reflexivity]].
    + rewrite IH.
      destruct (install_loop self install_cmd flag l1 _)
        as [[[[|]|e] w1] e1]; try reflexivity.
      destruct (install_loop self install_cmd flag l2 w1) as [[r w2] e2].
      reflexivity.
    + rewrite IH.
      destruct (install_loop self install_cmd flag l1 _)
        as [[[[|]|e] w1] e1]; try reflexivity.
      destruct (install_loop self install_cmd flag l2 w1) as [[r w2] e2].
      reflexivity.
Qed.

(** A handler that returned true logged no warning. *)
Lemma tap_true_no_warning (l : list string) (w w1 : World self)
    (e1 : list Event) :
  _tap self l w = (Returned true, w1, e1) -> logged Warning e1 = [].
Proof.
  intros H. destruct (tap_spec l w) as (b & w' & evs & H' & _ & Hr).
  rewrite H in H'. injection H' as <- <- <-.
  destruct Hr as [[_ Hr]|[? _]]; [exact Hr | discriminate].
Qed.

Lemma bundle_true_no_warning (l : list string) (w w1 : World self)
    (e1 : list Event) :
  _install_bundle self l w = (Returned true, w1, e1) -> logged Warning e1 = [].
Proof.
  intros H. destruct (bundle_spec l w) as (b & w' & evs & H' & _ & Hr).
  rewrite H in H'. injection H' as <- <- <-.
  destruct Hr as [[_ Hr]|[? _]]; [exact Hr | discriminate].
Qed.

Lemma install_true_no_warning (c : string) (l : list string)
    (w w1 : World self) (e1 : list Event) :
  _install self c l w = (Returned true, w1, e1) -> logged Warning e1 = [].
Proof.
  intros H. destruct (install_spec c l w) as (b & w' & evs & H' & _ & Hr).
  rewrite H in H'. injection H' as <- <- <-.
  destruct Hr as [[_ Hr]|[? _]]; [exact Hr | discriminate].
Qed.

Lemma install_loop_true_no_warning (c f : string) (l : list string)
    (w w1 : World self) (e1 : list Event) :
  install_loop self c f l w = (Returned true, w1, e1) -> logged Warning e1 = [].
Proof.
  intros H.
  destruct (install_loop_spec c f l w) as (b & w' & evs & H' & _ & Hr).
  rewrite H in H'. injection H' as <- <- <-.
  destruct Hr as [[_ Hr]|[? _]]; [exact Hr | discriminate].
Qed.

(** When every command exits with status 0 the loop goes through the
    whole list. *)
Lemma tap_all_zero (l : list string) :
  forall w,
    all_exit_zero self (append "brew tap ") l w ->
    exists evs,
      _tap self l w
      = (Returned true, world_after_all self (append "brew tap ") l w, evs)
      /\ invocations evs = map (fun x => (tap_cmd self x, 0%Z)) l.
Proof.
  induction l as [|x l IH]; intros w H.
  - exists []. split; reflexivity.
  - destruct H as [E H]. rewrite tap_cons. cbv zeta. rewrite E. cbn [Z.eqb].
    destruct (IH _ H) as (evs & -> & Hi).
    eexists. split; [reflexivity|]. cbn [invocations app map]. now rewrite Hi.
Qed.

Lemma bundle_all_zero (l : list string) :
  forall w,
    all_exit_zero self (append "brew bundle --file=") l w ->
    exists evs,
      _install_bundle self l w
      = (Returned true,
         world_after_all self (append "brew bundle --file=") l w, evs)
      /\ invocations evs = map (fun x => (bundle_cmd self x, 0%Z)) l.
Proof.
  induction l as [|x l IH]; intros w H.
  - exists []. split; reflexivity.
  - destruct H as [E H]. rewrite bundle_cons. cbv zeta. rewrite E.
    cbn [Z.eqb]. destruct (IH _ H) as (evs & -> & Hi).
    eexists. split; [reflexivity|]. cbn [invocations app map]. now rewrite Hi.
Qed.

Lemma install_all_installed (c f : string) (l : list string) :
  forall w,
    all_installed self c f l w ->
    exists evs,
      install_loop self c f l w
      = (Returned true, world_after_installed self c f l w, evs)
      /\ invocations evs = install_trace self c f l w.
Proof.
  induction l as [|x l IH]; intros w H.
  - exists []. split; reflexivity.
  - cbn [all_installed world_after_installed install_trace] in *.
    cbv zeta in *. rewrite install_loop_cons. cbv zeta.
    destruct (Z.eqb_spec
                (exit_status self
                   (brew_call self ("brew ls --versions " ++ f ++ " " ++ x)) w)
                0) as [E|E].
    + destruct (IH _ H) as (evs & -> & Hi).
      eexists. split; [reflexivity|]. cbn [invocations app].
      now rewrite Hi, E.
    + destruct H as [E' H]. rewrite E'. cbn [Z.eqb].
      destruct (IH _ H) as (evs & -> & Hi).
      eexists. split; [reflexivity|]. cbn [invocations app]. now rewrite Hi.
Qed.

(** The first item whose command fails ends the run. *)
Lemma tap_first_failure (l1 l2 : list string) (x : string) (w : World self) :
  let z := exit_status self (brew_call self ("brew tap " ++ x))
             (world_after_all self (append "brew tap ") l1 w) in
  all_exit_zero self (append "brew tap ") l1 w ->
  z <> 0%Z ->
  exists w' evs,
    _tap self (l1 ++ x :: l2) w = (Returned false, w', evs)
    /\ invocations evs
       = (map (fun t => (tap_cmd self t, 0%Z)) l1 ++ [(tap_cmd self x, z)])%list
    /\ logged Warning evs
       = ["Failed to tap [" ++ x ++ "] - " ++ str_error self z (tap_cmd self x)].
Proof.
  intros z H Hz. subst z.
  destruct (tap_all_zero l1 w H) as (e1 & H1 & Hi).
  rewrite tap_app, H1, tap_cons. cbv zeta.
  destruct (Z.eqb_spec
              (exit_status self (brew_call self ("brew tap " ++ x))
                 (world_after_all self (append "brew tap ") l1 w)) 0)
    as [E|_]; [contradiction|].
  eexists _, _. split; [reflexivity|].
  rewrite invocations_app, logged_app, Hi, (tap_true_no_warning _ _ _ _ H1).
  split; reflexivity.
Qed.

Lemma bundle_first_failure (l1 l2 : list string) (x : string)
    (w : World self) :
  let z := exit_status self (brew_call self ("brew bundle --file=" ++ x))
             (world_after_all self (append "brew bundle --file=") l1 w) in
  all_exit_zero self (append "brew bundle --file=") l1 w ->
  z <> 0%Z ->
  exists w' evs,
    _install_bundle self (l1 ++ x :: l2) w = (Returned false, w', evs)
    /\ invocations evs
       = (map (fun t => (bundle_cmd self t, 0%Z)) l1
            ++ [(bundle_cmd self x, z)])%list
    /\ logged Warning evs
       = ["Failed to install file [" ++ x ++ "] - "
            ++ str_error self z (bundle_cmd self x)].
Proof.
  intros z H Hz. subst z.
  destruct (bundle_all_zero l1 w H) as (e1 & H1 & Hi).
  rewrite bundle_app, H1, bundle_cons. cbv zeta.
  destruct (Z.eqb_spec
              (exit_status self (brew_call self ("brew bundle --file=" ++ x))
                 (world_after_all self (append "brew bundle --file=") l1 w)) 0)
    as [E|_]; [contradiction|].
  eexists _, _. split; [reflexivity|].
  rewrite invocations_app, logged_app, Hi, (bundle_true_no_warning _ _ _ _ H1).
  split; reflexivity.
Qed.

Lemma install_first_failure (c f : string) (l1 l2 : list string) (x : string)
    (w : World self) :
  let query := brew_call self ("brew ls --versions " ++ f ++ " " ++ x) in
  let inst := brew_call self (c ++ " " ++ f ++ " " ++ x) in
  let w1 := world_after_installed self c f l1 w in
  let zq := exit_status self query w1 in
  let zi := exit_status self inst (world_after self query w1) in
  all_installed self c f l1 w ->
  zq <> 0%Z -> zi <> 0%Z ->
  exists w' evs,
    install_loop self c f (l1 ++ x :: l2) w = (Returned false, w', evs)
    /\ invocations evs
       = (install_trace self c f l1 w
            ++ [(query_cmd self f x, zq); (install_cmd_of self c f x, zi)])%list
    /\ logged Warning evs
       = ["Failed to install [" ++ x ++ "] - "
            ++ str_error self zi (install_cmd_of self c f x)].
Proof.
  intros query inst w1 zq zi H Hq Hi. subst zq zi.
  destruct (install_all_installed c f l1 w H) as (e1 & H1 & Ht).
  fold w1 in H1. rewrite install_loop_app, H1, install_loop_cons. cbv zeta.
  fold query. fold inst.
  destruct (Z.eqb_spec (exit_status self query w1) 0) as [E|_];
    [contradiction|].
  destruct (Z.eqb_spec (exit_status self inst (world_after self query w1)) 0)
    as [E|_]; [contradiction|].
  eexists _, _. split; [reflexivity|].
  rewrite invocations_app, logged_app, Ht,
    (install_loop_true_no_warning _ _ _ _ _ _ H1).
  split; reflexivity.
Qed.

(** C4: each of [_tap], [_install] and [_install_bundle] goes by the
    exit statuses the shell gives. When the commands of every item
    exit with status 0 (for a package: its version query, or its
    install command after a failed query) the handler runs them all
    and returns true. When the items [l1] succeed and the command of
    the next item [x] exits with a non-zero status, the handler
    returns false with that command as its last one: no item after
    [x] is attempted. *)
Theorem handlers_stop_at_first_failure (l1 l2 : list string) (x : string)
    (w : World self) :
  (all_exit_zero self (append "brew tap ") l1 w ->
   outcome (_tap self l1 w) = Returned true
   /\ invocations (events (_tap self l1 w))
      = map (fun t => (tap_cmd self t, 0%Z)) l1)
  /\ (all_exit_zero self (append "brew tap ") l1 w ->
      exit_status self (brew_call self ("brew tap " ++ x))
        (world_after_all self (append "brew tap ") l1 w) <> 0%Z ->
      outcome (_tap self (l1 ++ x :: l2) w) = Returned false
      /\ invocations (events (_tap self (l1 ++ x :: l2) w))
         = (map (fun t => (tap_cmd self t, 0%Z)) l1
              ++ [(tap_cmd self x,
                   exit_status self (brew_call self ("brew tap " ++ x))
                     (world_after_all self (append "brew tap ") l1 w))])%list)
  /\ (all_exit_zero self (append "brew bundle --file=") l1 w ->
      outcome (_install_bundle self l1 w) = Returned true
      /\ invocations (events (_install_bundle self l1 w))
         = map (fun t => (bundle_cmd self t, 0%Z)) l1)
  /\ (all_exit_zero self (append "brew bundle --file=") l1 w ->
      exit_status self (brew_call self ("brew bundle --file=" ++ x))
        (world_after_all self (append "brew bundle --file=") l1 w) <> 0%Z ->
      outcome (_install_bundle self (l1 ++ x :: l2) w) = Returned false
      /\ invocations (events (_install_bundle self (l1 ++ x :: l2) w))
         = (map (fun t => (bundle_cmd self t, 0%Z)) l1
              ++ [(bundle_cmd self x,
                   exit_status self
                     (brew_call self ("brew bundle --file=" ++ x))
                     (world_after_all self (append "brew bundle --file=")
                        l1 w))])%list)
  /\ (forall install_cmd,
        let flag := cask_flag_of install_cmd in
        all_installed self install_cmd flag l1 w ->
        outcome (_install self install_cmd l1 w) = Returned true
        /\ invocations (events (_install self install_cmd l1 w))
           = install_trace self install_cmd flag l1 w)
  /\ (forall install_cmd,
        let flag := cask_flag_of install_cmd in
        let query :=
          brew_call self ("brew ls --versions " ++ flag ++ " " ++ x) in
        let inst :=
          brew_call self (install_cmd ++ " " ++ flag ++ " " ++ x) in
        let w1 := world_after_installed self install_cmd flag l1 w in
        all_installed self install_cmd flag l1 w ->
        exit_status self query w1 <> 0%Z ->
        exit_status self inst (world_after self query w1) <> 0%Z ->
        outcome (_install self install_cmd (l1 ++ x :: l2) w) = Returned false
        /\ invocations (events (_install self install_cmd (l1 ++ x :: l2) w))
           = (install_trace self install_cmd flag l1 w
                ++ [(query_cmd self flag x, exit_status self query w1);
                    (install_cmd_of self install_cmd flag x,
                     exit_status self inst (world_after self query w1))])%list).
Proof.
  repeat split.
  - destruct (tap_all_zero l1 w H) as (evs & -> & _). reflexivity.
  - destruct (tap_all_zero l1 w H) as (evs & -> & Hi). exact Hi.
  - destruct (tap_first_failure l1 l2 x w H H0) as (w' & evs & -> & _).
    reflexivity.
  - destruct (tap_first_failure l1 l2 x w H H0) as (w' & evs & -> & Hi & _).
    exact Hi.
  - destruct (bundle_all_zero l1 w H) as (evs & -> & _). reflexivity.
  - destruct (bundle_all_zero l1 w H) as (evs & -> & Hi). exact Hi.
  - destruct (bundle_first_failure l1 l2 x w H H0) as (w' & evs & -> & _).
    reflexivity.
  - destruct (bundle_first_failure l1 l2 x w H H0) as (w' & evs & -> & Hi & _).
    exact Hi.
  - unfold _install. fold (cask_flag_of install_cmd).
    destruct (install_all_installed install_cmd _ l1 w H) as (evs & -> & _).
    reflexivity.
  - unfold _install. fold (cask_flag_of install_cmd).
    destruct (install_all_installed install_cmd _ l1 w H) as (evs & -> & Hi).
    exact Hi.
  - unfold _install. fold (cask_flag_of install_cmd).
    destruct (install_first_failure install_cmd _ l1 l2 x w H H0 H1)
      as (w' & evs & -> & _).
    reflexivity.
  - unfold _install. fold (cask_flag_of install_cmd).
    destruct (install_first_failure install_cmd _ l1 l2 x w H H0 H1)
      as (w' & evs & -> & Hi & _).
    exact Hi.
Qed.

(** C9, as the code has it: in all three paths a failure on one item
    aborts the rest of the list. Once the items [l1] have gone
    through, a failing command for [x] makes the handler log its
    warning for [x] and return false with that command as its last
    one, whatever follows [x]. *)
Theorem every_path_aborts_on_failure (l1 l2 : list string) (x : string)
    (w w1 : World self) (e1 : list Event) :
  (_tap self l1 w = (Returned true, w1, e1) ->
   exit_status self (brew_call self ("brew tap " ++ x)) w1 <> 0%Z ->
   outcome (_tap self (l1 ++ x :: l2) w) = Returned false
   /\ invocations (events (_tap self (l1 ++ x :: l2) w))
      = (invocations e1
           ++ [(tap_cmd self x,
                exit_status self (brew_call self ("brew tap " ++ x)) w1)])%list
   /\ logged Warning (events (_tap self (l1 ++ x :: l2) w))
      = ["Failed to tap [" ++ x ++ "] - "
           ++ str_error self
                (exit_status self (brew_call self ("brew tap " ++ x)) w1)
                (tap_cmd self x)])
  /\ (_install_bundle self l1 w = (Returned true, w1, e1) ->
      exit_status self (brew_call self ("brew bundle --file=" ++ x)) w1
        <> 0%Z ->
      outcome (_install_bundle self (l1 ++ x :: l2) w) = Returned false
      /\ invocations (events (_install_bundle self (l1 ++ x :: l2) w))
         = (invocations e1
              ++ [(bundle_cmd self x,
                   exit_status self
                     (brew_call self ("brew bundle --file=" ++ x)) w1)])%list
      /\ logged Warning (events (_install_bundle self (l1 ++ x :: l2) w))
         = ["Failed to install file [" ++ x ++ "] - "
              ++ str_error self
                   (exit_status self
                      (brew_call self ("brew bundle --file=" ++ x)) w1)
                   (bundle_cmd self x)])
  /\ (forall install_cmd,
        let flag := cask_flag_of install_cmd in
        let query :=
          brew_call self ("brew ls --versions " ++ flag ++ " " ++ x) in
        let inst :=
          brew_call self (install_cmd ++ " " ++ flag ++ " " ++ x) in
        _install self install_cmd l1 w = (Returned true, w1, e1) ->
        exit_status self query w1 <> 0%Z ->
        exit_status self inst (world_after self query w1) <> 0%Z ->
        outcome (_install self install_cmd (l1 ++ x :: l2) w) = Returned false
        /\ invocations (events (_install self install_cmd (l1 ++ x :: l2) w))
           = (invocations e1
                ++ [(query_cmd self flag x, exit_status self query w1);
                    (install_cmd_of self install_cmd flag x,
                     exit_status self inst (world_after self query w1))])%list
        /\ logged Warning
             (events (_install self install_cmd (l1 ++ x :: l2) w))
           = ["Failed to install [" ++ x ++ "] - "
                ++ str_error self
                     (exit_status self inst (world_after self query w1))
                     (install_cmd_of self install_cmd flag x)]).
Proof.
  split; [|split].
  - intros H1 Hx. rewrite tap_app, H1, tap_cons. cbv zeta.
    destruct (Z.eqb_spec
                (exit_status self (brew_call self ("brew tap " ++ x)) w1) 0)
      as [E|_]; [contradiction|].
    unfold events, outcome. cbn [fst snd]. split; [reflexivity|].
    rewrite invocations_app, logged_app, (tap_true_no_warning _ _ _ _ H1).
    split; reflexivity.
  - intros H1 Hx. rewrite bundle_app, H1, bundle_cons. cbv zeta.
    destruct (Z.eqb_spec
                (exit_status self
                   (brew_call self ("brew bundle --file=" ++ x)) w1) 0)
      as [E|_]; [contradiction|].
    unfold events, outcome. cbn [fst snd]. split; [reflexivity|].
    rewrite invocations_app, logged_app, (bundle_true_no_warning _ _ _ _ H1).
    split; reflexivity.
  - intros c flag query inst H1 Hq Hi.
    pose proof (install_true_no_warning _ _ _ _ _ H1) as Hw.
    unfold _install in *.
    fold (cask_flag_of c) in *. fold flag in H1 |- *.
    rewrite install_loop_app, H1, install_loop_cons. cbv zeta.
    fold query. fold inst.
    destruct (Z.eqb_spec (exit_status self query w1) 0) as [E|_];
      [contradiction|].
    destruct (Z.eqb_spec (exit_status self inst (world_after self query w1)) 0)
      as [E|_]; [contradiction|].
    unfold events, outcome. cbn [fst snd]. split; [reflexivity|].
    rewrite invocations_app, logged_app, Hw. split; reflexivity.
Qed.

(** On an empty list the three handlers return true and do nothing. *)
Lemma handlers_on_empty_list (install_cmd : string) (w : World self) :
  _tap self [] w = (Returned true, w, [])
  /\ _install self install_cmd [] w = (Returned true, w, [])
  /\ _install_bundle self [] w = (Returned true, w, []).
Proof. repeat split. Qed.

End Handlers.

(** ** [handle] *)

Section Handle.

Variable self : Brew.

(** [_bootstrap_brew] never raises: it runs the install script once,
    runs the update only after a script that exited with status 0,
    and words each failure as a warning. *)
Lemma bootstrap_spec (w : World self) :
  exists w' evs,
    _bootstrap_brew self w = (Returned tt, w', evs)
    /\ ((exists z, z <> 0%Z
                   /\ invocations evs = [(install_script, z)]
                   /\ logged Warning evs = ["Brew could not be installed"])
        \/ (exists z,
               invocations evs
               = [(install_script, 0%Z);
                  (shell_string self true "brew update", z)]
               /\ logged Warning evs
                  = if (z =? 0)%Z then []
                    else ["Brew could not be updated"])).
Proof.
  rewrite bootstrap_run. cbv zeta.
  destruct (Z.eqb_spec (exit_status self (install_script_call self) w) 0)
    as [E|E].
  - eexists _, _. split; [reflexivity|]. right.
    exists (exit_status self (brew_call self "brew update")
              (world_after self (install_script_call self) w)).
    rewrite E.
    destruct (exit_status self (brew_call self "brew update") _ =? 0)%Z;
      split; reflexivity.
  - eexists _, _. split; [reflexivity|]. left. eexists.
    split; [exact E|]. split; reflexivity.
Qed.

Lemma ensure_brew_spec (w : World self) :
  exists w' evs,
    ensure_brew self w = (Returned tt, w', evs) /\ no_failure_warning evs.
Proof.
  rewrite ensure_brew_run. cbv zeta.
  destruct (exit_status self _ w =? 0)%Z.
  - eexists _, _. split; [reflexivity|]. intros m [].
  - destruct (bootstrap_spec
                (world_after self
                   (MkCall (shell_string self true "hash brew") false
                      (base_directory self)) w))
      as (w' & evs & -> & H).
    eexists _, _. split; [reflexivity|]. intros m.
    cbn [app logged]. intros Hm.
    destruct H as [(z & _ & _ & Hw)|(z & _ & Hw)]; rewrite Hw in Hm.
    + destruct Hm as [<-|[]]. reflexivity.
    + destruct (z =? 0)%Z; [destruct Hm|].
      destruct Hm as [<-|[]]. reflexivity.
Qed.

Lemma required_tap_run (w : World self) :
  required_tap self w =
  if _is_macos (platform self) then
    let call := required_tap_call self in
    let z := exit_status self call w in
    (if (z =? 0)%Z then Returned tt
     else Raised (CalledProcessError z (sc_cmd call)),
     world_after self call w,
     [Logged LowInfo (sc_cmd call); Ran call z])
  else (Returned tt, w, []).
Proof. unfold required_tap. destruct (_is_macos (platform self)); reflexivity. Qed.

(** What [handle] does with a supported directive. *)
Lemma handle_run (d : string) (data : list string) (w : World self) :
  can_handle (platform self) d = true ->
  handle self d data w =
  match ensure_brew self w with
  | (Returned _, w1, e1) =>
      match required_tap self w1 with
      | (Returned _, w2, e2) =>
          match dispatch self d data w2 with
          | (r, w3, e3) => (r, w3, (e1 ++ e2 ++ e3)%list)
          end
      | (Raised e, w2, e2) => (Raised e, w2, (e1 ++ e2)%list)
      end
  | (Raised e, w1, e1) => (Raised e, w1, e1)
  end.
Proof.
  intros H. unfold handle. rewrite H. cbn [negb].
  unfold bind, Monad_Proc, proc_bind.
  destruct (ensure_brew self w) as [[[[]|e] w1] e1]; [|reflexivity].
  destruct (required_tap self w1) as [[[[]|e] w2] e2]; [|reflexivity].
  destruct (dispatch self d data w2) as [[r w3] e3]. reflexivity.
Qed.

Lemma short_circuits_last mk l evs :
  short_circuits mk l false evs ->
  exists t c z, z <> 0%Z /\ invocations evs = (t ++ [(c, z)])%list.
Proof.
  intros [[? _]|(_ & l1 & x & l2 & z & _ & Hz & Hi)]; [discriminate|].
  eexists _, _, z. split; [exact Hz | exact Hi].
Qed.

Lemma install_short_circuits_last c f l evs :
  install_short_circuits self c f l false evs ->
  exists t c z, z <> 0%Z /\ invocations evs = (t ++ [(c, z)])%list.
Proof.
  intros [[? _]|(_ & l1 & x & l2 & t1 & zq & zi & _ & _ & _ & Hz & Hi)];
    [discriminate|].
  exists (t1 ++ [(query_cmd self f x, zq)])%list,
    (install_cmd_of self c f x), zi.
  split; [exact Hz|]. now rewrite Hi, <- app_assoc.
Qed.

(** The handler of a supported directive returns a boolean. *)
Lemma dispatch_spec (d : string) (data : list string) (w : World self) :
  can_handle (platform self) d = true ->
  exists b w' evs,
    dispatch self d data w = (Returned (Some b), w', evs)
    /\ reports b evs
    /\ (b = false ->
        exists t c z, z <> 0%Z /\ invocations evs = (t ++ [(c, z)])%list).
Proof.
  intros H. apply can_handle_cases in H.
  destruct H as [->|[->|[->|[_ ->]]]]; unfold dispatch;
    repeat match goal with
      | |- context [String.eqb ?a ?b] =>
          let v := eval vm_compute in (String.eqb a b) in
          change (String.eqb a b) with v
      end;
    cbv iota; unfold bind, ret, Monad_Proc, proc_bind, proc_ret.
  - destruct (tap_spec self data w) as (b & w' & evs & -> & Hs & Hr).
    exists b, w', (evs ++ [])%list. rewrite app_nil_r.
    repeat split; trivial. intros ->. eapply short_circuits_last; eauto.
  - destruct (process_data_run self "brew install" data w)
      as (b & w' & evs & line & Hi & -> & Hl).
    destruct (install_spec self "brew install" data w)
      as (b' & w'' & evs' & Hi' & Hs & Hr).
    rewrite Hi in Hi'. injection Hi' as <- <- <-.
    exists b, w', ((evs ++ [line]) ++ [])%list. rewrite app_nil_r.
    split; [reflexivity|]. split.
    + unfold reports. rewrite logged_app.
      assert (logged Warning [line] = []) as ->
          by (destruct Hl as [->| ->]; reflexivity).
      rewrite app_nil_r. exact Hr.
    + intros ->. rewrite invocations_app.
      assert (invocations [line] = []) as ->
          by (destruct Hl as [->| ->]; reflexivity).
      rewrite app_nil_r. eapply install_short_circuits_last; eauto.
  - destruct (bundle_spec self data w) as (b & w' & evs & -> & Hs & Hr).
    exists b, w', (evs ++ [])%list. rewrite app_nil_r.
    repeat split; trivial. intros ->. eapply short_circuits_last; eauto.
  - destruct (process_data_run self "brew install --cask" data w)
      as (b & w' & evs & line & Hi & -> & Hl).
    destruct (install_spec self "brew install --cask" data w)
      as (b' & w'' & evs' & Hi' & Hs & Hr).
    rewrite Hi in Hi'. injection Hi' as <- <- <-.
    exists b, w', ((evs ++ [line]) ++ [])%list. rewrite app_nil_r.
    split; [reflexivity|]. split.
    + unfold reports. rewrite logged_app.
      assert (logged Warning [line] = []) as ->
          by (destruct Hl as [->| ->]; reflexivity).
      rewrite app_nil_r. exact Hr.
    + intros ->. rewrite invocations_app.
      assert (invocations [line] = []) as ->
          by (destruct Hl as [->| ->]; reflexivity).
      rewrite app_nil_r. eapply install_short_circuits_last; eauto.
Qed.

(** With a supported directive, and unless the macOS step fails,
    [handle] reaches the directive's handler, whatever the lookup of
    the binary and the bootstrap did. *)
Lemma handle_reaches_dispatch (d : string) (data : list string)
    (w : World self) :
  can_handle (platform self) d = true ->
  (_is_macos (platform self) = true ->
   exit_status self (required_tap_call self) (snd (fst (ensure_brew self w)))
   = 0%Z) ->
  exists w2 pre,
    no_failure_warning pre
    /\ handle self d data w =
       match dispatch self d data w2 with
       | (r, w3, e3) => (r, w3, (pre ++ e3)%list)
       end.
Proof.
  intros Hd Ht. rewrite (handle_run d data w Hd).
  destruct (ensure_brew_spec w) as (w1 & e1 & He & Hw). rewrite He in *.
  cbn [fst snd] in Ht. rewrite required_tap_run.
  destruct (_is_macos (platform self)).
  - cbv zeta. rewrite (Ht eq_refl). cbn [Z.eqb].
    exists (world_after self (required_tap_call self) w1),
      (e1 ++ [Logged LowInfo (sc_cmd (required_tap_call self));
              Ran (required_tap_call self) 0])%list.
    split.
    + intros m. rewrite logged_app. cbn [logged]. rewrite app_nil_r.
      apply Hw.
    + destruct (dispatch self d data _) as [[r w3] e3].
      now rewrite <- app_assoc.
  - exists w1, e1. split; [exact Hw|].
    destruct (dispatch self d data w1) as [[r w3] e3]. reflexivity.
Qed.

(** With a supported directive [handle] returns a boolean, or raises
    the [CalledProcessError] of the macOS step. *)
Lemma handle_supported_outcome (d : string) (data : list string)
    (w : World self) :
  can_handle (platform self) d = true ->
  (exists b, outcome (handle self d data w) = Returned (Some b))
  \/ (exists z c, outcome (handle self d data w)
                  = Raised (CalledProcessError z c)).
Proof.
  intros Hd.
  destruct (Z.eq_dec
              (exit_status self (required_tap_call self)
                 (snd (fst (ensure_brew self w)))) 0) as [E|E].
  - destruct (handle_reaches_dispatch d data w Hd (fun _ => E))
      as (w2 & pre & _ & ->).
    destruct (dispatch_spec d data w2 Hd) as (b & w' & evs & -> & _).
    left. now exists b.
  - rewrite (handle_run d data w Hd).
    destruct (ensure_brew_spec w) as (w1 & e1 & He & _). rewrite He in *.
    cbn [fst snd] in E. rewrite required_tap_run.
    destruct (_is_macos (platform self)).
    + cbv zeta.
      destruct (Z.eqb_spec (exit_status self (required_tap_call self) w1) 0)
        as [E'|_]; [contradiction|].
      right. eexists _, _. reflexivity.
    + destruct (dispatch_spec d data w1 Hd) as (b & w' & evs & -> & _).
      left. now exists b.
Qed.


Ltac eval_directive :=
  unfold _tap_directive, _brew_directive, _cask_directive,
    _brewfile_directive in *;
  repeat match goal with
    | |- context [String.eqb ?a ?b] =>
        let v := eval vm_compute in (String.eqb a b) in
        change (String.eqb a b) with v
    | H : context [String.eqb ?a ?b] |- _ =>
        let v := eval vm_compute in (String.eqb a b) in
        change (String.eqb a b) with v in H
    end;
  cbv iota in *.

Lemma command_failure_some (cmd : string) (w : World self)
    (failed : string * Z) :
  command_failure self cmd w = Some failed ->
  exit_status self (brew_call self cmd) w <> 0%Z
  /\ failed = (sc_cmd (brew_call self cmd),
               exit_status self (brew_call self cmd) w).
Proof.
  unfold command_failure. cbv zeta.
  destruct (Z.eqb_spec (exit_status self (brew_call self cmd) w) 0) as [E|E];
    [discriminate|].
  intros [= <-]. now split.
Qed.

Lemma install_failure_some (c f x : string) (w : World self)
    (failed : string * Z) :
  let query := brew_call self ("brew ls --versions " ++ f ++ " " ++ x) in
  let inst := brew_call self (c ++ " " ++ f ++ " " ++ x) in
  install_failure self c f x w = Some failed ->
  exit_status self query w <> 0%Z
  /\ exit_status self inst (world_after self query w) <> 0%Z
  /\ failed = (sc_cmd inst, exit_status self inst (world_after self query w)).
Proof.
  unfold install_failure. cbv zeta.
  destruct (Z.eqb_spec
              (exit_status self
                 (brew_call self ("brew ls --versions " ++ f ++ " " ++ x)) w) 0)
    as [E|E]; [discriminate|].
  destruct (Z.eqb_spec
              (exit_status self (brew_call self (c ++ " " ++ f ++ " " ++ x))
                 (world_after self
                    (brew_call self ("brew ls --versions " ++ f ++ " " ++ x))
                    w)) 0)
    as [E'|E']; [discriminate|].
  intros [= <-]. now repeat split.
Qed.

Lemma process_data_of_install (c : string) (l : list string) (w w' : World self)
    (b : bool) (evs : list Event) :
  _install self c l w = (Returned b, w', evs) ->
  exists line,
    _process_data self c l w = (Returned b, w', (evs ++ [line])%list)
    /\ invocations [line] = [] /\ logged Warning [line] = [].
Proof.
  intros H. unfold _process_data, bind, Monad_Proc, proc_bind, ret, proc_ret.
  rewrite H. destruct b; eexists; repeat split.
Qed.

(** The handler of a directive whose items all succeed. *)
Lemma dispatch_succeeds (d : string) (l : list string) (w : World self) :
  can_handle (platform self) d = true ->
  items_succeed self d l w ->
  exists w' evs,
    dispatch self d l w = (Returned (Some true), w', evs)
    /\ logged Warning evs = [].
Proof.
  intros H Hs. apply can_handle_cases in H.
  destruct H as [->|[->|[->|[_ ->]]]];
    unfold dispatch, items_succeed in *; eval_directive;
    unfold bind, ret, Monad_Proc, proc_bind, proc_ret.
  - destruct (tap_all_zero self l w Hs) as (evs & H1 & _). rewrite H1.
    eexists _, _. split; [reflexivity|].
    now rewrite app_nil_r, (tap_true_no_warning self _ _ _ _ H1).
  - destruct (install_all_installed self _ _ l w Hs) as (evs & H1 & _).
    destruct (process_data_of_install "brew install" l w _ true evs H1)
      as (line & -> & _ & Hw).
    eexists _, _. split; [reflexivity|].
    now rewrite app_nil_r, logged_app, Hw,
      (install_true_no_warning self _ _ _ _ _ H1).
  - destruct (bundle_all_zero self l w Hs) as (evs & H1 & _). rewrite H1.
    eexists _, _. split; [reflexivity|].
    now rewrite app_nil_r, (bundle_true_no_warning self _ _ _ _ H1).
  - destruct (install_all_installed self _ _ l w Hs) as (evs & H1 & _).
    destruct (process_data_of_install "brew install --cask" l w _ true evs H1)
      as (line & -> & _ & Hw).
    eexists _, _. split; [reflexivity|].
    now rewrite app_nil_r, logged_app, Hw,
      (install_true_no_warning self _ _ _ _ _ H1).
Qed.

(** The handler of a directive whose item [x] is the first to fail. *)
Lemma dispatch_fails (d : string) (l1 l2 : list string) (x : string)
    (w : World self) (failed : string * Z) :
  can_handle (platform self) d = true ->
  items_succeed self d l1 w ->
  item_failure self d x (world_after_items self d l1 w) = Some failed ->
  exists w' evs t,
    dispatch self d (l1 ++ x :: l2) w = (Returned (Some false), w', evs)
    /\ snd failed <> 0%Z
    /\ invocations evs = (t ++ [failed])%list
    /\ logged Warning evs = [failure_warning self d x failed]
    /\ String.prefix "Failed to " (failure_warning self d x failed) = true.
Proof.
  intros H Hs Hf. apply can_handle_cases in H.
  destruct H as [->|[->|[->|[_ ->]]]];
    unfold dispatch, items_succeed, world_after_items, item_failure,
      failure_warning in *;
    eval_directive; unfold bind, ret, Monad_Proc, proc_bind, proc_ret.
  - apply command_failure_some in Hf. destruct Hf as [Hz ->].
    destruct (tap_first_failure self l1 l2 x w Hs Hz)
      as (w' & evs & -> & Hi & Hw).
    eexists _, _, _. split; [reflexivity|]. split; [exact Hz|].
    rewrite app_nil_r. split; [exact Hi|]. split; [exact Hw | reflexivity].
  - apply install_failure_some in Hf. destruct Hf as (Hq & Hz & ->).
    destruct (install_first_failure self "brew install" "" l1 l2 x w Hs Hq Hz)
      as (w' & evs & H1 & Hi & Hw).
    destruct (process_data_of_install "brew install" (l1 ++ x :: l2) w _
                false evs H1) as (line & -> & Hli & Hlw).
    eexists _, _, (_ ++ [_])%list. split; [reflexivity|]. split; [exact Hz|].
    rewrite app_nil_r, invocations_app, logged_app, Hli, Hlw, !app_nil_r.
    split; [rewrite Hi, <- app_assoc; reflexivity|].
    split; [exact Hw | reflexivity].
  - apply command_failure_some in Hf. destruct Hf as [Hz ->].
    destruct (bundle_first_failure self l1 l2 x w Hs Hz)
      as (w' & evs & -> & Hi & Hw).
    eexists _, _, _. split; [reflexivity|]. split; [exact Hz|].
    rewrite app_nil_r. split; [exact Hi|]. split; [exact Hw | reflexivity].
  - apply install_failure_some in Hf. destruct Hf as (Hq & Hz & ->).
    destruct (install_first_failure self "brew install --cask" "--cask"
                l1 l2 x w Hs Hq Hz)
      as (w' & evs & H1 & Hi & Hw).
    destruct (process_data_of_install "brew install --cask" (l1 ++ x :: l2) w
                _ false evs H1) as (line & -> & Hli & Hlw).
    eexists _, _, (_ ++ [_])%list. split; [reflexivity|]. split; [exact Hz|].
    rewrite app_nil_r, invocations_app, logged_app, Hli, Hlw, !app_nil_r.
    split; [rewrite Hi, <- app_assoc; reflexivity|].
    split; [exact Hw | reflexivity].
Qed.

Lemma failure_warnings_none (evs : list Event) :
  no_failure_warning evs -> failure_warnings evs = [].
Proof.
  unfold no_failure_warning, failure_warnings.
  induction (logged Warning evs) as [|m l IH]; intros H; [reflexivity|].
  cbn [filter]. rewrite (H m (or_introl eq_refl)). apply IH.
  intros m' Hm. apply H. now right.
Qed.

Lemma failure_warnings_app (e1 e2 : list Event) :
  failure_warnings (e1 ++ e2)
  = (failure_warnings e1 ++ failure_warnings e2)%list.
Proof. unfold failure_warnings. now rewrite logged_app, filter_app. Qed.

(** With a supported directive, and unless the macOS step fails,
    [handle] is its preliminary steps followed by the handler, run in
    the world those steps left. *)
Lemma handle_then_dispatch (d : string) (data : list string)
    (w : World self) :
  let w1 := snd (fst (ensure_brew self w)) in
  let w2 := snd (fst (required_tap self w1)) in
  can_handle (platform self) d = true ->
  (_is_macos (platform self) = true ->
   exit_status self (required_tap_call self) w1 = 0%Z) ->
  exists pre,
    no_failure_warning pre
    /\ handle self d data w =
       match dispatch self d data w2 with
       | (r, w3, e3) => (r, w3, (pre ++ e3)%list)
       end.
Proof.
  intros w1 w2 Hd Ht. subst w1 w2. rewrite (handle_run d data w Hd).
  destruct (ensure_brew_spec w) as (w1 & e1 & He & Hw). rewrite He in *.
  cbn [fst snd] in *. rewrite required_tap_run.
  destruct (_is_macos (platform self)).
  - cbv zeta. rewrite (Ht eq_refl). cbn [Z.eqb fst snd].
    exists (e1 ++ [Logged LowInfo (sc_cmd (required_tap_call self));
                   Ran (required_tap_call self) 0])%list.
    split.
    + intros m. rewrite logged_app. cbn [logged]. rewrite app_nil_r.
      apply Hw.
    + destruct (dispatch self d data _) as [[r w3] e3].
      now rewrite <- app_assoc.
  - cbn [fst snd]. exists e1. split; [exact Hw|].
    destruct (dispatch self d data w1) as [[r w3] e3]. reflexivity.
Qed.

(** C1, as the code has it: with a supported directive, and unless
    the macOS step fails, the exit statuses decide the result of
    [handle], whatever [hash brew] and the bootstrap did. When every
    item succeeds (for a package: its version query, or its install
    command after a failed query) [handle] returns true and logs no
    "Failed to" warning. When the items [l1] succeed and the next item
    [x] fails (its tap or bundle command, or its install command after
    a failed query) [handle] returns false: the failing command is the
    last one handed to the shell, and the one "Failed to" warning of
    the run is the handler's warning for [x]. *)
Theorem handle_catches_failures (d : string) (l1 l2 : list string)
    (x : string) (w : World self) :
  let w1 := snd (fst (ensure_brew self w)) in
  let w2 := snd (fst (required_tap self w1)) in
  can_handle (platform self) d = true ->
  (_is_macos (platform self) = true ->
   exit_status self (required_tap_call self) w1 = 0%Z) ->
  (items_succeed self d l1 w2 ->
   outcome (handle self d l1 w) = Returned (Some true)
   /\ failure_warnings (events (handle self d l1 w)) = [])
  /\ (forall failed,
        items_succeed self d l1 w2 ->
        item_failure self d x (world_after_items self d l1 w2) = Some failed ->
        outcome (handle self d (l1 ++ x :: l2) w) = Returned (Some false)
        /\ snd failed <> 0%Z
        /\ (exists t,
               invocations (events (handle self d (l1 ++ x :: l2) w))
               = (t ++ [failed])%list)
        /\ failure_warnings (events (handle self d (l1 ++ x :: l2) w))
           = [failure_warning self d x failed]).
Proof.
  intros w1 w2 Hd Ht. split.
  - intros Hs.
    destruct (handle_then_dispatch d l1 w Hd Ht) as (pre & Hpre & ->).
    fold w1 w2.
    destruct (dispatch_succeeds d l1 w2 Hd Hs) as (w' & evs & -> & Hw).
    unfold outcome, events. cbn [fst snd]. split; [reflexivity|].
    rewrite failure_warnings_app, (failure_warnings_none pre Hpre).
    unfold failure_warnings. now rewrite Hw.
  - intros failed Hs Hf.
    destruct (handle_then_dispatch d (l1 ++ x :: l2) w Hd Ht)
      as (pre & Hpre & ->).
    fold w1 w2.
    destruct (dispatch_fails d l1 l2 x w2 failed Hd Hs Hf)
      as (w' & evs & t & -> & Hz & Hi & Hw & Hp).
    unfold outcome, events. cbn [fst snd]. split; [reflexivity|].
    split; [exact Hz|]. split.
    + exists (invocations pre ++ t)%list.
      now rewrite invocations_app, Hi, app_assoc.
    + rewrite failure_warnings_app, (failure_warnings_none pre Hpre).
      unfold failure_warnings. rewrite Hw. cbn [filter app].
      now rewrite Hp.
Qed.

(** With empty data the handler of a supported directive returns
    true without a shell command. *)
Lemma dispatch_empty (d : string) (w : World self) :
  can_handle (platform self) d = true ->
  exists evs, dispatch self d [] w = (Returned (Some true), w, evs)
              /\ invocations evs = [].
Proof.
  intros H. apply can_handle_cases in H.
  destruct H as [->|[->|[->|[_ ->]]]]; eexists; split; reflexivity.
Qed.

Lemma handle_empty_data (d : string) (w : World self) :
  can_handle (platform self) d = true ->
  (_is_macos (platform self) = true ->
   exit_status self (required_tap_call self) (snd (fst (ensure_brew self w)))
   = 0%Z) ->
  outcome (handle self d [] w) = Returned (Some true).
Proof.
  intros Hd Ht.
  destruct (handle_reaches_dispatch d [] w Hd Ht) as (w2 & pre & _ & ->).
  destruct (dispatch_empty d w2 Hd) as (evs & -> & _). reflexivity.
Qed.

End Handle.

(** ** The environment prefix *)

Lemma append_assoc (a b c : string) : (a ++ b) ++ c = a ++ (b ++ c).
Proof. induction a as [|x a IH]; simpl; [reflexivity | now rewrite IH]. Qed.

Lemma prefix_append (a b : string) : String.prefix a (a ++ b) = true.
Proof.
  induction a as [|x a IH]; simpl; [now destruct b|].
  destruct (ascii_dec x x) as [_|N]; [exact IH | now destruct N].
Qed.

(** With [include_envs] the shell string is the command behind
    [env_prefix]; without it, the command alone. *)
Lemma shell_string_prefix (self : Brew) (cmd : string) :
  shell_string self true cmd = env_prefix self ++ cmd
  /\ shell_string self false cmd = cmd.
Proof.
  split; [|reflexivity]. unfold shell_string, env_prefix.
  now rewrite !append_assoc.
Qed.

(** The dict has the six names of [brew shellenv], in that order, and
    every value starts with the platform's path. *)
Lemma homebrew_envs_names (P : Platform) :
  map fst (_homebrew_envs P) = shellenv_names
  /\ Forall (fun kv => String.prefix (_homebrew_path P) (snd kv) = true)
       (_homebrew_envs P).
Proof.
  split; [reflexivity|].
  repeat constructor; cbn [snd]; try apply prefix_append.
  - rewrite <- (prefix_append (_homebrew_path P) ""). f_equal.
    induction (_homebrew_path P) as [|x a IH]; simpl; congruence.
  - rewrite <- (prefix_append (_homebrew_path P) ""). f_equal.
    induction (_homebrew_path P) as [|x a IH]; simpl; congruence.
Qed.

(** On each platform the class body accepts, the text put before a
    command has no equals sign, and so no word [name=value]. *)
Lemma env_prefix_has_no_assignment (self : Brew)
    (sys_platform machine : string) :
  platform_context sys_platform machine = Some (platform self) ->
  PyStr.has_char "=" (env_prefix self) = false.
Proof.
  intros H. apply platform_context_cases in H. unfold env_prefix.
  destruct H as [-> | [-> | ->]]; vm_compute; reflexivity.
Qed.

(** C3, at [_run_cmd("brew update")] on Linux: what is put before the
    command is the dict as Python prints it, in which no name is
    followed by an equals sign; the text has no equals sign at all. *)
Theorem env_prefix_is_dict_text :
  shell_string (plugin linux []) true "brew update"
  = "eval " ++ PyStr.dq
      ++ "$({'HOMEBREW_PREFIX': '/home/linuxbrew/.linuxbrew', "
      ++ "'HOMEBREW_CELLAR': '/home/linuxbrew/.linuxbrew/Cellar', "
      ++ "'HOMEBREW_REPOSITORY': '/home/linuxbrew/.linuxbrew', "
      ++ "'PATH': '/home/linuxbrew/.linuxbrew/bin:/home/linuxbrew/.linuxbrew/sbin${PATH+:$PATH}', "
      ++ "'MANPATH': '/home/linuxbrew/.linuxbrew/share/man${MANPATH+:$MANPATH}:', "
      ++ "'INFOPATH': '/home/linuxbrew/.linuxbrew/share/info:${INFOPATH:-}'})"
      ++ PyStr.dq ++ " && brew update"
  /\ existsb
       (fun name =>
          assigns_in_shell name
            (shell_string (plugin linux []) true "brew update"))
       shellenv_names = false
  /\ PyStr.has_char "="
       (shell_string (plugin linux []) true "brew update") = false.
Proof. repeat split; vm_compute; reflexivity. Qed.

(** ** Runs on concrete machines *)

(** C1 as stated fails on Linux when only [hash brew] exits with a
    non-zero status: [handle] bootstraps, installs and returns true,
    and logs no warning. *)
Lemma hash_failure_is_not_reported :
  ~ failures_reported (handle (plugin linux ["hash brew"]) "brew" ["git"] tt).
Proof.
  intros H.
  destruct (H (shell_string (plugin linux []) true "hash brew") 1%Z) as [H1 _].
  - vm_compute. left. reflexivity.
  - discriminate.
  - vm_compute in H1. discriminate.
Qed.

Lemma handle_catches_failures_witness :
  let self := plugin macos_arm64 ["brew ls"; "brew install  curl"] in
  (outcome (handle self "brew" ["git"] tt) = Returned (Some true)
   /\ failure_warnings (events (handle self "brew" ["git"] tt)) = [])
  /\ (outcome (handle self "brew" ["git"; "curl"; "wget"] tt)
      = Returned (Some false)
      /\ failure_warnings
           (events (handle self "brew" ["git"; "curl"; "wget"] tt))
         = ["Failed to install [curl] - Command '"
              ++ install_cmd_of self "brew install" "" "curl"
              ++ "' returned non-zero exit status 1."]).
Proof.
  cbv zeta.
  destruct (handle_catches_failures
              (plugin macos_arm64 ["brew ls"; "brew install  curl"])
              "brew" ["git"] ["wget"] "curl" tt) as [H1 H2].
  - reflexivity.
  - intros _. vm_compute. reflexivity.
  - split.
    + apply H1. vm_compute. repeat split.
    + destruct (H2 (install_cmd_of
                      (plugin macos_arm64 ["brew ls"; "brew install  curl"])
                      "brew install" "" "curl", 1%Z))
        as (Ho & _ & _ & Hw).
      * vm_compute. repeat split.
      * vm_compute. reflexivity.
      * split; [exact Ho|].
        change ["git"; "curl"; "wget"] with (["git"] ++ "curl" :: ["wget"])%list.
        rewrite Hw. vm_compute. reflexivity.
Defined.

(** The commands [_install] issues for an absent cask. *)
Lemma cask_install_command (self : Brew) (p : string) (w : World self) :
  exit_status self (brew_call self ("brew ls --versions --cask " ++ p)) w
    <> 0%Z ->
  commands (events (_install self "brew install --cask" [p] w))
  = [shell_string self true ("brew ls --versions --cask " ++ p);
     shell_string self true ("brew install --cask --cask " ++ p)].
Proof.
  intros Hq. unfold _install.
  change (if negb ("brew install --cask" =? "brew install") then "--cask" else "")
    with "--cask".
  rewrite install_loop_cons. cbv zeta.
  change ("brew ls --versions " ++ "--cask" ++ " " ++ p)
    with ("brew ls --versions --cask " ++ p).
  change ("brew install --cask" ++ " " ++ "--cask" ++ " " ++ p)
    with ("brew install --cask --cask " ++ p).
  destruct (Z.eqb_spec
              (exit_status self
                 (brew_call self ("brew ls --versions --cask " ++ p)) w) 0)
    as [E|_]; [contradiction|].
  destruct (exit_status self _ _ =? 0)%Z; reflexivity.
Qed.

(** C2, at [handle("cask", ["firefox"])] on macOS with the cask
    absent: the install command carries the flag twice. *)
Theorem cask_install_repeats_flag :
  commands (events (handle (plugin macos_arm64 ["brew ls"])
                      "cask" ["firefox"] tt))
  = map (shell_string (plugin macos_arm64 []) true)
      ["hash brew"; "brew tap homebrew/cask";
       "brew ls --versions --cask firefox";
       "brew install --cask --cask firefox"].
Proof. vm_compute. reflexivity. Qed.

(** The formula path puts two blanks before the package name. *)
Lemma formula_install_command :
  commands (events (handle (plugin linux ["brew ls"]) "brew" ["git"] tt))
  = map (shell_string (plugin linux []) true)
      ["hash brew"; "brew ls --versions  git"; "brew install  git"].
Proof. vm_compute. reflexivity. Qed.


(** C8, on macOS with the binary missing and the install script
    failing: the macOS step fails in turn and [handle] raises before
    any command of the directive. *)
Theorem failed_bootstrap_raises_on_macos :
  let self := plugin macos_arm64 ["hash brew"; "curl"; "brew tap homebrew/cask"] in
  outcome (handle self "brew" ["git"] tt)
  = Raised (CalledProcessError 1 (shell_string self true "brew tap homebrew/cask"))
  /\ commands (events (handle self "brew" ["git"] tt))
     = [shell_string self true "hash brew"; install_script;
        shell_string self true "brew tap homebrew/cask"]
  /\ logged Warning (events (handle self "brew" ["git"] tt))
     = ["Brew could not be installed"].
Proof. repeat split; vm_compute; reflexivity. Qed.

(** The same run on Linux goes on to the directive's commands. *)
Lemma failed_bootstrap_proceeds_on_linux :
  let self := plugin linux ["hash brew"; "curl"] in
  outcome (handle self "brew" ["git"] tt) = Returned (Some true)
  /\ commands (events (handle self "brew" ["git"] tt))
     = [shell_string self true "hash brew"; install_script;
        shell_string self true "brew ls --versions  git"].
Proof. repeat split; vm_compute; reflexivity. Qed.

(** C9 as stated fails: after a failing first item the second one is
    not attempted, in the tap path and in the bundle path. *)
Lemma tap_and_bundle_skip_after_failure :
  ~ attempts_all (tap_cmd (plugin linux [])) ["a/x"; "b/y"]
      (events (_tap (plugin linux ["brew tap a/x"]) ["a/x"; "b/y"] tt))
  /\ ~ attempts_all (bundle_cmd (plugin linux [])) ["One"; "Two"]
        (events (_install_bundle (plugin linux ["--file=One"])
                   ["One"; "Two"] tt)).
Proof.
  split; intros H.
  - specialize (H "b/y" (or_intror (or_introl eq_refl))).
    vm_compute in H. destruct H as [H|[]]. discriminate H.
  - specialize (H "Two" (or_intror (or_introl eq_refl))).
    vm_compute in H. destruct H as [H|[]]. discriminate H.
Qed.

Lemma handlers_stop_at_first_failure_witness :
  let self :=
    plugin linux ["brew tap b/y"; "--file=b/y"; "brew ls"; "brew install  b/y"] in
  (outcome (_tap self ["a/x"] tt) = Returned true
   /\ outcome (_tap self ["a/x"; "b/y"; "c/z"] tt) = Returned false
   /\ commands (events (_tap self ["a/x"; "b/y"; "c/z"] tt))
      = map (tap_cmd self) ["a/x"; "b/y"])
  /\ (outcome (_install_bundle self ["a/x"] tt) = Returned true
      /\ outcome (_install_bundle self ["a/x"; "b/y"; "c/z"] tt)
         = Returned false
      /\ commands (events (_install_bundle self ["a/x"; "b/y"; "c/z"] tt))
         = map (bundle_cmd self) ["a/x"; "b/y"])
  /\ (outcome (_install self "brew install" ["a/x"] tt) = Returned true
      /\ outcome (_install self "brew install" ["a/x"; "b/y"; "c/z"] tt)
         = Returned false
      /\ commands
           (events (_install self "brew install" ["a/x"; "b/y"; "c/z"] tt))
         = [query_cmd self "" "a/x"; install_cmd_of self "brew install" "" "a/x";
            query_cmd self "" "b/y"; install_cmd_of self "brew install" "" "b/y"]).
Proof.
  cbv zeta.
  destruct (handlers_stop_at_first_failure
              (plugin linux ["brew tap b/y"; "--file=b/y"; "brew ls";
                             "brew install  b/y"])
              ["a/x"] ["c/z"] "b/y" tt)
    as (T1 & T2 & B1 & B2 & I1 & I2).
  split; [|split].
  - destruct T1 as [Ho _]; [vm_compute; repeat split|].
    destruct T2 as [Ho' Hi]; [vm_compute; repeat split | vm_compute; discriminate|].
    split; [exact Ho|]. split; [exact Ho'|].
    unfold commands.
    change ["a/x"; "b/y"; "c/z"] with (["a/x"] ++ "b/y" :: ["c/z"])%list.
    rewrite Hi. vm_compute. reflexivity.
  - destruct B1 as [Ho _]; [vm_compute; repeat split|].
    destruct B2 as [Ho' Hi]; [vm_compute; repeat split | vm_compute; discriminate|].
    split; [exact Ho|]. split; [exact Ho'|].
    unfold commands.
    change ["a/x"; "b/y"; "c/z"] with (["a/x"] ++ "b/y" :: ["c/z"])%list.
    rewrite Hi. vm_compute. reflexivity.
  - destruct (I1 "brew install") as [Ho _]; [vm_compute; repeat split|].
    destruct (I2 "brew install") as [Ho' Hi];
      [vm_compute; repeat split | vm_compute; discriminate
      | vm_compute; discriminate |].
    split; [exact Ho|]. split; [exact Ho'|].
    unfold commands.
    change ["a/x"; "b/y"; "c/z"] with (["a/x"] ++ "b/y" :: ["c/z"])%list.
    rewrite Hi. vm_compute. reflexivity.
Defined.

Lemma every_path_aborts_on_failure_witness :
  (outcome (_tap (plugin linux ["brew tap b/y"]) ["a/x"; "b/y"; "c/z"] tt)
   = Returned false
   /\ commands (events (_tap (plugin linux ["brew tap b/y"])
                          ["a/x"; "b/y"; "c/z"] tt))
      = map (tap_cmd (plugin linux [])) ["a/x"; "b/y"]
   /\ logged Warning (events (_tap (plugin linux ["brew tap b/y"])
                                ["a/x"; "b/y"; "c/z"] tt))
      = ["Failed to tap [b/y] - Command '"
           ++ tap_cmd (plugin linux []) "b/y"
           ++ "' returned non-zero exit status 1."])
  /\ (outcome (_install_bundle (plugin linux ["--file=Two"])
                ["One"; "Two"; "Three"] tt)
      = Returned false)
  /\ (outcome (_install (plugin linux ["brew ls"; "brew install  curl"])
                "brew install" ["git"; "curl"; "wget"] tt)
      = Returned false).
Proof.
  split; [|split].
  - destruct (every_path_aborts_on_failure (plugin linux ["brew tap b/y"])
                ["a/x"] ["c/z"] "b/y" tt tt
                (events (_tap (plugin linux ["brew tap b/y"]) ["a/x"] tt)))
      as (Ht & _).
    destruct Ht as (Ho & Hi & Hw); [reflexivity | vm_compute; discriminate |].
    split; [exact Ho|]. unfold commands.
    change (["a/x"; "b/y"; "c/z"]) with (["a/x"] ++ "b/y" :: ["c/z"])%list.
    rewrite Hi, Hw. split; vm_compute; reflexivity.
  - destruct (every_path_aborts_on_failure (plugin linux ["--file=Two"])
                ["One"] ["Three"] "Two" tt tt
                (events (_install_bundle (plugin linux ["--file=Two"])
                           ["One"] tt)))
      as (_ & Hb & _).
    destruct Hb as (Ho & _); [reflexivity | vm_compute; discriminate |].
    exact Ho.
  - destruct (every_path_aborts_on_failure
                (plugin linux ["brew ls"; "brew install  curl"])
                ["git"] ["wget"] "curl" tt tt
                (events (_install
                           (plugin linux ["brew ls"; "brew install  curl"])
                           "brew install" ["git"] tt)))
      as (_ & _ & Hi).
    destruct (Hi "brew install") as (Ho & _);
      [reflexivity | vm_compute; discriminate | vm_compute; discriminate |].
    exact Ho.
Defined.

(** C10, at [handle("tap", [])] on macOS with a failing macOS step:
    the call raises although the list is empty. *)
Theorem empty_data_raises_on_macos :
  let self := plugin macos_arm64 ["brew tap homebrew/cask"] in
  outcome (handle self "tap" [] tt)
  = Raised (CalledProcessError 1 (shell_string self true "brew tap homebrew/cask"))
  /\ commands (events (handle self "tap" [] tt))
     = [shell_string self true "hash brew";
        shell_string self true "brew tap homebrew/cask"].
Proof. repeat split; vm_compute; reflexivity. Qed.

(** ** Properties of every run

    A property of event lists that holds of the empty list, of each
    kind of line and call the plugin emits, and of concatenations,
    holds of the events of every method. *)

Section EventInduction.

Variable self : Brew.
Variable Q : list Event -> Prop.

Hypothesis Q_nil : Q [].
Hypothesis Q_app : forall e1 e2, Q e1 -> Q e2 -> Q (e1 ++ e2)%list.
Hypothesis Q_info : forall m, Q [Logged Info m].
Hypothesis Q_warning : forall m, Q [Logged Warning m].
Hypothesis Q_cmd :
  forall cmd z,
    Q [Logged LowInfo (sc_cmd (brew_call self cmd)); Ran (brew_call self cmd) z].

Lemma Q_bind {A B} (m : Proc self A) (k : A -> Proc self B) (w : World self) :
  Q (events (m w)) -> (forall a w1, Q (events (k a w1))) ->
  Q (events (proc_bind m k w)).
Proof.
  intros Hm Hk. unfold proc_bind, events in *.
  destruct (m w) as [[[a|e] w1] e1]; [|exact Hm].
  specialize (Hk a w1). destruct (k a w1) as [[r w2] e2].
  cbn [snd] in *. now apply Q_app.
Qed.

Lemma Q_try {A B} (body : Proc self A) (handler : Z -> string -> Proc self B)
    (orelse : A -> Proc self B) (w : World self) :
  Q (events (body w)) ->
  (forall z c w1, Q (events (handler z c w1))) ->
  (forall a w1, Q (events (orelse a w1))) ->
  Q (events (try_except_else body handler orelse w)).
Proof.
  intros Hb Hh Ho. unfold try_except_else, events in *.
  destruct (body w) as [[[a|[z c|m]] w1] e1]; cbn [snd] in *.
  - specialize (Ho a w1). destruct (orelse a w1) as [[r w2] e2].
    now apply Q_app.
  - specialize (Hh z c w1). destruct (handler z c w1) as [[r w2] e2].
    now apply Q_app.
  - exact Hb.
Qed.

Lemma Q_run_cmd (cmd : string) (w : World self) :
  Q (events (_run_cmd self cmd true true w)).
Proof. rewrite run_cmd_run. apply Q_cmd. Qed.

Ltac q_step :=
  change (@bind (Proc self) (Monad_Proc self)) with (@proc_bind self);
  change (@ret (Proc self) (Monad_Proc self)) with (@proc_ret self);
  first
    [ apply Q_run_cmd | apply Q_info | apply Q_warning | apply Q_nil
    | apply Q_try | apply Q_bind ];
  intros.

Lemma tap_events_ind (l : list string) :
  forall w, Q (events (_tap self l w)).
Proof.
  induction l as [|x l IH]; intros w; [apply Q_nil|].
  cbn [_tap]. repeat q_step. apply IH.
Qed.

Lemma bundle_events_ind (l : list string) :
  forall w, Q (events (_install_bundle self l w)).
Proof.
  induction l as [|x l IH]; intros w; [apply Q_nil|].
  cbn [_install_bundle]. repeat q_step. apply IH.
Qed.

Lemma install_events_ind (install_cmd : string) (l : list string) :
  forall w, Q (events (_install self install_cmd l w)).
Proof.
  unfold _install. generalize (cask_flag_of install_cmd) as flag.
  intros flag. fold (cask_flag_of install_cmd).
  induction l as [|x l IH]; intros w; [apply Q_nil|].
  cbn [install_loop]. repeat q_step; apply IH.
Qed.

Lemma required_tap_events_ind (w : World self) :
  Q (events (required_tap self w)).
Proof.
  unfold required_tap. destruct (_is_macos (platform self)); q_step.
Qed.

(** The lines and calls of [_process_data], [_bootstrap_brew] and
    [handle] besides. *)
Hypothesis Q_error : forall m, Q [Logged Error m].
Hypothesis Q_script :
  forall z,
    Q [Logged LowInfo install_script; Ran (install_script_call self) z].
Hypothesis Q_hash :
  forall z,
    Q [Logged LowInfo (sc_cmd (hash_brew_call self));
       Ran (hash_brew_call self) z].

Lemma process_data_events_ind (install_cmd : string) (l : list string)
    (w : World self) :
  Q (events (_process_data self install_cmd l w)).
Proof.
  unfold _process_data.
  change (@bind (Proc self) (Monad_Proc self)) with (@proc_bind self).
  apply Q_bind; [apply install_events_ind|].
  intros [|] w1; apply Q_bind; intros;
    solve [apply Q_info | apply Q_error | apply Q_nil].
Qed.

Lemma bootstrap_events_ind (w : World self) :
  Q (events (_bootstrap_brew self w)).
Proof.
  unfold _bootstrap_brew. apply Q_try; intros.
  - rewrite run_cmd_run. apply Q_script.
  - apply Q_warning.
  - repeat q_step.
Qed.

Lemma ensure_brew_events_ind (w : World self) :
  Q (events (ensure_brew self w)).
Proof.
  unfold ensure_brew. apply Q_try; intros.
  - rewrite run_cmd_run. apply Q_hash.
  - change (@bind (Proc self) (Monad_Proc self)) with (@proc_bind self).
    apply Q_bind; intros; [apply Q_info | apply bootstrap_events_ind].
  - apply Q_nil.
Qed.

Lemma dispatch_events_ind (d : string) (data : list string) (w : World self) :
  Q (events (dispatch self d data w)).
Proof.
  unfold dispatch.
  change (@bind (Proc self) (Monad_Proc self)) with (@proc_bind self).
  destruct (d =? _tap_directive);
    [apply Q_bind; intros; [apply tap_events_ind | apply Q_nil]|].
  destruct (d =? _brew_directive);
    [apply Q_bind; intros; [apply process_data_events_ind | apply Q_nil]|].
  destruct (d =? _cask_directive);
    [apply Q_bind; intros; [apply process_data_events_ind | apply Q_nil]|].
  destruct (d =? _brewfile_directive);
    [apply Q_bind; intros; [apply bundle_events_ind | apply Q_nil]|].
  apply Q_nil.
Qed.

Lemma handle_events_ind (d : string) (data : list string) (w : World self) :
  Q (events (handle self d data w)).
Proof.
  unfold handle. destruct (can_handle (platform self) d); [|apply Q_nil].
  cbn [negb].
  change (@bind (Proc self) (Monad_Proc self)) with (@proc_bind self).
  apply Q_bind; [apply ensure_brew_events_ind|]. intros _ w1.
  apply Q_bind; [apply required_tap_events_ind|]. intros _ w2.
  apply dispatch_events_ind.
Qed.

End EventInduction.

Section Runs.

Variable self : Brew.

(** X2: every subprocess [handle] starts runs in the base directory
    and is the install script (no environment prefix), [hash brew]
    (output not captured), or a prefixed command with captured
    output. *)
Theorem handle_calls_conform (d : string) (data : list string)
    (w : World self) :
  Forall (conforms self) (events (handle self d data w)).
Proof.
  apply handle_events_ind.
  - constructor.
  - intros e1 e2 H1 H2. apply Forall_app. now split.
  - intros m. repeat constructor.
  - intros m. repeat constructor.
  - intros cmd z. constructor; [exact I|]. constructor; [|constructor].
    split; [reflexivity|]. right. right. now exists cmd.
  - intros m. repeat constructor.
  - intros z. constructor; [exact I|]. constructor; [|constructor].
    split; [reflexivity|]. now left.
  - intros z. constructor; [exact I|]. constructor; [|constructor].
    split; [reflexivity|]. right. now left.
Qed.

(** X3: the lines [handle] logs at level lowinfo are the shell strings
    of the commands it runs, one for each and in the same order. *)
Theorem handle_logs_every_command (d : string) (data : list string)
    (w : World self) :
  logged LowInfo (events (handle self d data w))
  = commands (events (handle self d data w)).
Proof.
  apply (handle_events_ind self
           (fun evs => logged LowInfo evs = commands evs));
    try reflexivity.
  intros e1 e2 H1 H2. unfold commands in *.
  now rewrite logged_app, invocations_app, map_app, H1, H2.
Qed.

(** No method but [_process_data] logs at level error. *)
Lemma no_error_line_app (e1 e2 : list Event) :
  logged Error e1 = [] -> logged Error e2 = [] -> logged Error (e1 ++ e2) = [].
Proof. intros H1 H2. now rewrite logged_app, H1, H2. Qed.

Lemma install_no_error_line (install_cmd : string) (l : list string)
    (w : World self) :
  logged Error (events (_install self install_cmd l w)) = [].
Proof.
  apply (install_events_ind self (fun evs => logged Error evs = []));
    try reflexivity.
  apply no_error_line_app.
Qed.

Lemma process_data_exact (install_cmd : string) (l : list string)
    (w : World self) :
  exists b w' evs,
    _install self install_cmd l w = (Returned b, w', evs)
    /\ _process_data self install_cmd l w
       = (Returned b, w', (evs ++ [process_data_line install_cmd b])%list).
Proof.
  destruct (install_spec self install_cmd l w) as (b & w' & evs & Hi & _).
  exists b, w', evs. split; [exact Hi|].
  unfold _process_data, bind, Monad_Proc, proc_bind, ret, proc_ret.
  rewrite Hi. destruct b; reflexivity.
Qed.


(** X5: [_bootstrap_brew] never raises. It runs the install script
    once, without the environment prefix; it runs [brew update] only
    after a script that exited with status 0; a failure of either is
    worded as one warning. *)
Theorem bootstrap_never_raises (w : World self) :
  let script := install_script_call self in
  let update := brew_call self "brew update" in
  let zs := exit_status self script w in
  let zu := exit_status self update (world_after self script w) in
  exists w',
    _bootstrap_brew self w
    = (Returned tt, w',
       if (zs =? 0)%Z then
         [Logged LowInfo install_script; Ran script 0;
          Logged Info "Updating brew";
          Logged LowInfo (sc_cmd update); Ran update zu]
         ++ (if (zu =? 0)%Z then []
             else [Logged Warning "Brew could not be updated"])
       else
         [Logged LowInfo install_script; Ran script zs;
          Logged Warning "Brew could not be installed"])%list
    /\ w' = (if (zs =? 0)%Z
             then world_after self update (world_after self script w)
             else world_after self script w).
Proof.
  cbv zeta. rewrite bootstrap_run. cbv zeta.
  destruct (Z.eqb_spec (exit_status self (install_script_call self) w) 0)
    as [E|E].
  - rewrite E. eexists. split; reflexivity.
  - eexists. split; reflexivity.
Qed.

(** X7: processing a list in two parts. Each handler treats
    [l1 ++ l2] as [l1] and then, when that returned true, [l2] in the
    world left by [l1]; after a false result [l2] is not looked at. *)
Theorem handlers_compose (l1 l2 : list string) (w : World self) :
  (_tap self (l1 ++ l2) w =
   match _tap self l1 w with
   | (Returned true, w1, e1) =>
       match _tap self l2 w1 with
       | (r, w2, e2) => (r, w2, (e1 ++ e2)%list)
       end
   | other => other
   end)
  /\ (forall install_cmd,
        _install self install_cmd (l1 ++ l2) w =
        match _install self install_cmd l1 w with
        | (Returned true, w1, e1) =>
            match _install self install_cmd l2 w1 with
            | (r, w2, e2) => (r, w2, (e1 ++ e2)%list)
            end
        | other => other
        end)
  /\ (_install_bundle self (l1 ++ l2) w =
      match _install_bundle self l1 w with
      | (Returned true, w1, e1) =>
          match _install_bundle self l2 w1 with
          | (r, w2, e2) => (r, w2, (e1 ++ e2)%list)
          end
      | other => other
      end).
Proof.
  split; [apply tap_app | split; [|apply bundle_app]].
  intros c. unfold _install. apply install_loop_app.
Qed.

Lemma tap_no_error_line (l : list string) (w : World self) :
  logged Error (events (_tap self l w)) = [].
Proof.
  apply (tap_events_ind self (fun evs => logged Error evs = []));
    try reflexivity.
  apply no_error_line_app.
Qed.

Lemma bundle_no_error_line (l : list string) (w : World self) :
  logged Error (events (_install_bundle self l w)) = [].
Proof.
  apply (bundle_events_ind self (fun evs => logged Error evs = []));
    try reflexivity.
  apply no_error_line_app.
Qed.

Lemma ensure_brew_no_error_line (w : World self) :
  logged Error (events (ensure_brew self w)) = [].
Proof.
  apply (ensure_brew_events_ind self (fun evs => logged Error evs = []));
    try reflexivity.
  apply no_error_line_app.
Qed.

Lemma required_tap_no_error_line (w : World self) :
  logged Error (events (required_tap self w)) = [].
Proof.
  apply (required_tap_events_ind self (fun evs => logged Error evs = []));
    try reflexivity.
Qed.

Lemma dispatch_error_lines (d : string) (data : list string) (w : World self) :
  can_handle (platform self) d = true ->
  exists b w' evs,
    dispatch self d data w = (Returned (Some b), w', evs)
    /\ logged Error evs = error_lines_of d b.
Proof.
  intros H. apply can_handle_cases in H.
  destruct H as [->|[->|[->|[_ ->]]]]; unfold dispatch;
    repeat match goal with
      | |- context [String.eqb ?a ?b] =>
          let v := eval vm_compute in (String.eqb a b) in
          change (String.eqb a b) with v
      end;
    cbv iota; unfold bind, ret, Monad_Proc, proc_bind, proc_ret.
  - pose proof (tap_no_error_line data w) as He.
    destruct (tap_spec self data w) as (b & w' & evs & Ht & _).
    rewrite Ht in *. exists b, w', (evs ++ [])%list.
    split; [reflexivity|]. rewrite app_nil_r. unfold events in He.
    cbn [snd] in He. rewrite He. now destruct b.
  - pose proof (install_no_error_line "brew install" data w) as He.
    destruct (process_data_exact "brew install" data w)
      as (b & w' & evs & Hi & ->).
    rewrite Hi in He. unfold events in He. cbn [snd] in He.
    eexists b, w', _. split; [reflexivity|].
    rewrite !logged_app, He. now destruct b.
  - pose proof (bundle_no_error_line data w) as He.
    destruct (bundle_spec self data w) as (b & w' & evs & Ht & _).
    rewrite Ht in *. exists b, w', (evs ++ [])%list.
    split; [reflexivity|]. rewrite app_nil_r. unfold events in He.
    cbn [snd] in He. rewrite He. now destruct b.
  - pose proof (install_no_error_line "brew install --cask" data w) as He.
    destruct (process_data_exact "brew install --cask" data w)
      as (b & w' & evs & Hi & ->).
    rewrite Hi in He. unfold events in He. cbn [snd] in He.
    eexists b, w', _. split; [reflexivity|].
    rewrite !logged_app, He. now destruct b.
Qed.

(** X10: [handle] logs at level error only after a failed install of
    formulae or casks: "Some brew formulae were not installed" when
    the brew directive returns false, "Some brew casks were not
    installed" when the cask directive does, and nothing otherwise
    (true result, tap or brewfile directive, or an exception). *)
Theorem handle_error_lines (d : string) (data : list string)
    (w : World self) :
  logged Error (events (handle self d data w))
  = match outcome (handle self d data w) with
    | Returned (Some false) =>
        if d =? "brew" then ["Some brew formulae were not installed"]
        else if d =? "cask" then ["Some brew casks were not installed"]
        else []
    | _ => []
    end.
Proof.
  destruct (can_handle (platform self) d) eqn:Hd.
  - rewrite (handle_run self d data w Hd).
    pose proof (ensure_brew_no_error_line w) as H1.
    destruct (ensure_brew self w) as [[[[]|e] w1] e1]; [|exact H1].
    pose proof (required_tap_no_error_line w1) as H2.
    destruct (required_tap self w1) as [[[[]|e] w2] e2];
      unfold events in H1, H2; cbn [snd] in H1, H2.
    + destruct (dispatch_error_lines d data w2 Hd)
        as (b & w3 & e3 & -> & H3).
      unfold events, outcome. cbn [fst snd].
      rewrite !logged_app, H1, H2, H3. now destruct b.
    + unfold events, outcome. cbn [fst snd].
      now rewrite logged_app, H1, H2.
  - unfold handle. rewrite Hd. reflexivity.
Qed.

Lemma brew_call_not_script (cmd : string) :
  sc_cmd (brew_call self cmd) <> install_script.
Proof.
  unfold brew_call, shell_string, install_script. cbn [sc_cmd append].
  discriminate.
Qed.

Lemma no_script_app (e1 e2 : list Event) :
  ~ In install_script (commands e1) -> ~ In install_script (commands e2) ->
  ~ In install_script (commands (e1 ++ e2)).
Proof.
  intros H1 H2. unfold commands in *. rewrite invocations_app, map_app.
  intros H. apply in_app_or in H. tauto.
Qed.

Lemma no_script_cmd (cmd : string) (z : Z) :
  ~ In install_script
      (commands [Logged LowInfo (sc_cmd (brew_call self cmd));
                 Ran (brew_call self cmd) z]).
Proof.
  intros [H|[]]. now apply (brew_call_not_script cmd).
Qed.

(** After [ensure_brew], nothing [handle] runs is the install script. *)
Lemma handle_tail (d : string) (data : list string) (w : World self) :
  can_handle (platform self) d = true ->
  exists tail,
    events (handle self d data w) = (events (ensure_brew self w) ++ tail)%list
    /\ ~ In install_script (commands tail).
Proof.
  intros Hd. rewrite (handle_run self d data w Hd).
  destruct (ensure_brew_spec self w) as (w1 & e1 & -> & _).
  assert (H2 : ~ In install_script (commands (events (required_tap self w1)))).
  { apply (required_tap_events_ind self
             (fun evs => ~ In install_script (commands evs)));
      first [apply no_script_cmd | intros []]. }
  assert (H3 : forall w2,
             ~ In install_script (commands (events (dispatch self d data w2)))).
  { intros w2.
    apply (dispatch_events_ind self
             (fun evs => ~ In install_script (commands evs)));
      first [apply no_script_app | apply no_script_cmd
            | intros m [] | intros []]. }
  destruct (required_tap self w1) as [[[[]|e] w2] e2].
  - specialize (H3 w2). destruct (dispatch self d data w2) as [[r w3] e3].
    exists (e2 ++ e3)%list. split; [reflexivity|]. now apply no_script_app.
  - exists e2. split; [reflexivity | exact H2].
Qed.

(** X4: with a supported directive [handle] starts with [hash brew].
    The install script runs right after it when, and only when,
    [hash brew] exited with a non-zero status, and at no other point
    of the run. *)
Theorem bootstrap_only_when_brew_missing (d : string) (data : list string)
    (w : World self) :
  can_handle (platform self) d = true ->
  let hash := hash_brew_call self in
  let zh := exit_status self hash w in
  let zs := exit_status self (install_script_call self)
              (world_after self hash w) in
  exists rest,
    ~ In install_script (map fst rest)
    /\ invocations (events (handle self d data w))
       = (sc_cmd hash, zh)
           :: (if (zh =? 0)%Z then rest else (install_script, zs) :: rest).
Proof.
  intros Hd hash zh zs. subst hash zh zs.
  destruct (handle_tail d data w Hd) as (tail & -> & Ht).
  rewrite ensure_brew_run. cbv zeta.
  change (MkCall (shell_string self true "hash brew") false
            (base_directory self)) with (hash_brew_call self).
  destruct (exit_status self (hash_brew_call self) w =? 0)%Z.
  - exists (invocations tail). split; [exact Ht|].
    unfold events. cbn [snd]. now rewrite invocations_app.
  - rewrite bootstrap_run. cbv zeta.
    destruct (exit_status self (install_script_call self) _ =? 0)%Z;
      unfold events; cbn [snd];
      rewrite invocations_app; cbn [invocations app].
    + eexists (_ :: invocations tail).
      split; [|destruct (exit_status self (brew_call self "brew update") _
                         =? 0)%Z; reflexivity].
      cbn [map fst]. intros [H|H]; [|now apply Ht].
      now apply (brew_call_not_script "brew update").
    + exists (invocations tail). split; [exact Ht | reflexivity].
Qed.

(** X6: on macOS, with a supported directive, a failing
    [brew tap homebrew/cask] ends the call: [handle] raises its
    [CalledProcessError], with the full shell string and the exit
    status, and the run is the lookup of the binary (with the
    bootstrap, if any) followed by that command alone. The data is not
    looked at. *)
Theorem required_tap_failure_raises (d : string) (data : list string)
    (w : World self) :
  let w1 := snd (fst (ensure_brew self w)) in
  let z := exit_status self (required_tap_call self) w1 in
  can_handle (platform self) d = true ->
  _is_macos (platform self) = true ->
  z <> 0%Z ->
  handle self d data w
  = (Raised (CalledProcessError z (sc_cmd (required_tap_call self))),
     world_after self (required_tap_call self) w1,
     (events (ensure_brew self w)
        ++ [Logged LowInfo (sc_cmd (required_tap_call self));
            Ran (required_tap_call self) z])%list).
Proof.
  intros w1 z Hd Hm Hz. subst w1 z. rewrite (handle_run self d data w Hd).
  destruct (ensure_brew_spec self w) as (w1 & e1 & He & _). rewrite He in *.
  cbn [fst snd] in *. rewrite required_tap_run, Hm. cbv zeta.
  destruct (Z.eqb_spec (exit_status self (required_tap_call self) w1) 0)
    as [E|_]; [contradiction|].
  reflexivity.
Qed.

(** X13: with a supported directive and an empty list, and unless the
    macOS step fails, [handle] returns true; the only commands it runs
    are those of its preliminary steps. *)
Theorem handle_empty_data_succeeds (d : string) (w : World self) :
  can_handle (platform self) d = true ->
  (_is_macos (platform self) = true ->
   exit_status self (required_tap_call self) (snd (fst (ensure_brew self w)))
   = 0%Z) ->
  outcome (handle self d [] w) = Returned (Some true)
  /\ invocations (events (handle self d [] w))
     = (invocations (events (ensure_brew self w))
          ++ invocations
               (events (required_tap self (snd (fst (ensure_brew self w))))))%list.
Proof.
  intros Hd Ht. rewrite (handle_run self d [] w Hd).
  destruct (ensure_brew_spec self w) as (w1 & e1 & He & _). rewrite He in *.
  cbn [fst snd] in *. rewrite required_tap_run.
  destruct (_is_macos (platform self)).
  - cbv zeta. rewrite (Ht eq_refl). cbn [Z.eqb].
    destruct (dispatch_empty self d (world_after self (required_tap_call self) w1)
                Hd) as (evs & -> & Hi).
    unfold outcome, events. cbn [fst snd]. split; [reflexivity|].
    now rewrite !invocations_app, Hi, app_nil_r.
  - destruct (dispatch_empty self d w1 Hd) as (evs & -> & Hi).
    unfold outcome, events. cbn [fst snd]. split; [reflexivity|].
    now rewrite !invocations_app, Hi.
Qed.

Lemma installs_ok_all_zero (c f : string) (l : list string)
    (t : list (string * Z)) :
  installs_ok self c f l t ->
  Forall (fun i => snd i = 0%Z) t ->
  t = map (fun p => (query_cmd self f p, 0%Z)) l.
Proof.
  induction 1 as [|p l t Hok IH|p l t z Hz Hok IH]; intros Hall.
  - reflexivity.
  - inversion Hall; subst. cbn [map]. now rewrite <- IH.
  - inversion Hall as [|? ? Hhead _]. now cbn in Hhead.
Qed.

(** X8: a run of [_install] in which every command exited with status
    0 consisted of the version queries alone, one for each package in
    order: nothing was installed, and the result is true. *)
Theorem install_runs_only_queries (install_cmd : string) (l : list string)
    (w : World self) :
  Forall (fun i => snd i = 0%Z)
    (invocations (events (_install self install_cmd l w))) ->
  outcome (_install self install_cmd l w) = Returned true
  /\ invocations (events (_install self install_cmd l w))
     = map (fun p => (query_cmd self (cask_flag_of install_cmd) p, 0%Z)) l.
Proof.
  destruct (install_spec self install_cmd l w) as (b & w' & evs & -> & Hs & _).
  unfold outcome, events. cbn [fst snd]. intros Hall.
  destruct Hs as [[-> Hok]
                 |(_ & l1 & x & l2 & t1 & zq & zi & _ & _ & Hq & _ & Hi)].
  - split; [reflexivity|]. now apply (installs_ok_all_zero install_cmd).
  - rewrite Hi in Hall. apply Forall_app in Hall. destruct Hall as [_ Hall].
    inversion Hall as [|? ? Hhead _]. now cbn in Hhead.
Qed.

Lemma installs_ok_length (c f : string) (l : list string)
    (t : list (string * Z)) :
  installs_ok self c f l t -> length t <= 2 * length l.
Proof.
  induction 1; cbn [length]; lia.
Qed.

Lemma tap_bound (l : list string) (w : World self) :
  length (invocations (events (_tap self l w))) <= length l.
Proof.
  destruct (tap_spec self l w) as (b & w' & evs & -> & Hs & _).
  unfold events. cbn [snd].
  destruct Hs as [[_ ->]|(_ & l1 & x & l2 & z & -> & _ & ->)];
    rewrite ?length_app, ?length_map; cbn [length]; lia.
Qed.

Lemma bundle_bound (l : list string) (w : World self) :
  length (invocations (events (_install_bundle self l w))) <= length l.
Proof.
  destruct (bundle_spec self l w) as (b & w' & evs & -> & Hs & _).
  unfold events. cbn [snd].
  destruct Hs as [[_ ->]|(_ & l1 & x & l2 & z & -> & _ & ->)];
    rewrite ?length_app, ?length_map; cbn [length]; lia.
Qed.

Lemma install_bound (c : string) (l : list string) (w : World self) :
  length (invocations (events (_install self c l w))) <= 2 * length l.
Proof.
  destruct (install_spec self c l w) as (b & w' & evs & -> & Hs & _).
  unfold events. cbn [snd].
  destruct Hs as [[_ Hok]
                 |(_ & l1 & x & l2 & t1 & zq & zi & -> & Hok & _ & _ & ->)].
  - now apply installs_ok_length in Hok.
  - apply installs_ok_length in Hok.
    rewrite !length_app. cbn [length]. lia.
Qed.

Lemma process_data_bound (c : string) (l : list string) (w : World self) :
  length (invocations (events (_process_data self c l w))) <= 2 * length l.
Proof.
  pose proof (install_bound c l w) as H.
  destruct (process_data_exact c l w) as (b & w' & evs & Hi & ->).
  rewrite Hi in H. unfold events in *. cbn [snd] in *.
  rewrite invocations_app.
  replace (invocations [process_data_line c b]) with (@nil (string * Z))
    by (unfold process_data_line; now destruct b).
  now rewrite app_nil_r.
Qed.

Lemma bind_ret_events {A B} (m : Proc self A) (f : A -> B) (w : World self) :
  events (proc_bind m (fun a => proc_ret (f a)) w) = events (m w).
Proof.
  unfold proc_bind, proc_ret, events.
  destruct (m w) as [[[a|e] w1] e1]; cbn [snd]; [apply app_nil_r | reflexivity].
Qed.

Lemma dispatch_bound (d : string) (data : list string) (w : World self) :
  length (invocations (events (dispatch self d data w))) <= 2 * length data.
Proof.
  unfold dispatch.
  change (@bind (Proc self) (Monad_Proc self)) with (@proc_bind self).
  change (@ret (Proc self) (Monad_Proc self)) with (@proc_ret self).
  destruct (d =? _tap_directive).
  { rewrite bind_ret_events. pose proof (tap_bound data w). lia. }
  destruct (d =? _brew_directive).
  { rewrite bind_ret_events. apply process_data_bound. }
  destruct (d =? _cask_directive).
  { rewrite bind_ret_events. apply process_data_bound. }
  destruct (d =? _brewfile_directive).
  { rewrite bind_ret_events. pose proof (bundle_bound data w). lia. }
  cbn. lia.
Qed.

Lemma ensure_brew_bound (w : World self) :
  length (invocations (events (ensure_brew self w))) <= 3.
Proof.
  rewrite ensure_brew_run. cbv zeta.
  destruct (_ =? 0)%Z; [cbn; lia|].
  rewrite bootstrap_run. cbv zeta.
  destruct (_ =? 0)%Z; [destruct (_ =? 0)%Z|]; cbn; lia.
Qed.

(** X9: the work of a call is bounded by its list. [_tap] and
    [_install_bundle] run at most one command for each item,
    [_install] at most two for each package, and [handle] at most four
    commands besides those of its handler. *)
Theorem handle_command_bound (d : string) (data : list string)
    (w : World self) :
  length (invocations (events (_tap self data w))) <= length data
  /\ length (invocations (events (_install_bundle self data w)))
     <= length data
  /\ (forall install_cmd,
        length (invocations (events (_install self install_cmd data w)))
        <= 2 * length data)
  /\ length (invocations (events (handle self d data w)))
     <= 4 + 2 * length data.
Proof.
  split; [apply tap_bound|]. split; [apply bundle_bound|].
  split; [intros c; apply install_bound|].
  destruct (can_handle (platform self) d) eqn:Hd.
  - rewrite (handle_run self d data w Hd).
    pose proof (ensure_brew_bound w) as H1.
    destruct (ensure_brew self w) as [[[[]|e] w1] e1];
      unfold events in H1; cbn [snd] in H1; [|unfold events; cbn [snd]; lia].
    assert (H2 : length (invocations (events (required_tap self w1))) <= 1).
    { rewrite required_tap_run.
      destruct (_is_macos (platform self)); cbn; lia. }
    pose proof (dispatch_bound d data) as H3.
    destruct (required_tap self w1) as [[[[]|e] w2] e2];
      unfold events in H2; cbn [snd] in H2.
    + specialize (H3 w2). destruct (dispatch self d data w2) as [[r w3] e3].
      unfold events in *. cbn [snd] in *.
      rewrite !invocations_app, !length_app. lia.
    + unfold events. cbn [snd]. rewrite invocations_app, length_app. lia.
  - unfold handle. rewrite Hd. cbn. lia.
Qed.




(** X11: the warning of a failed item. When a handler stops at an item
    [x], the one warning of its run names [x] and ends with Python's
    text for the error, made from the exit status and the full shell
    string of the failed command. *)
Theorem failure_warning_names_item (l1 l2 : list string) (x : string)
    (w w1 : World self) (e1 : list Event) :
  (_tap self l1 w = (Returned true, w1, e1) ->
   let z := exit_status self (brew_call self ("brew tap " ++ x)) w1 in
   z <> 0%Z ->
   logged Warning (events (_tap self (l1 ++ x :: l2) w))
   = ["Failed to tap [" ++ x ++ "] - " ++ str_error self z (tap_cmd self x)])
  /\ (_install_bundle self l1 w = (Returned true, w1, e1) ->
      let z := exit_status self
                 (brew_call self ("brew bundle --file=" ++ x)) w1 in
      z <> 0%Z ->
      logged Warning (events (_install_bundle self (l1 ++ x :: l2) w))
      = ["Failed to install file [" ++ x ++ "] - "
           ++ str_error self z (bundle_cmd self x)])
  /\ (forall install_cmd,
        let flag := cask_flag_of install_cmd in
        let query :=
          brew_call self ("brew ls --versions " ++ flag ++ " " ++ x) in
        let inst :=
          brew_call self (install_cmd ++ " " ++ flag ++ " " ++ x) in
        let z := exit_status self inst (world_after self query w1) in
        _install self install_cmd l1 w = (Returned true, w1, e1) ->
        exit_status self query w1 <> 0%Z ->
        z <> 0%Z ->
        logged Warning (events (_install self install_cmd (l1 ++ x :: l2) w))
        = ["Failed to install [" ++ x ++ "] - "
             ++ str_error self z (install_cmd_of self install_cmd flag x)]).
Proof.
  split; [|split].
  - intros H1 z Hz. subst z. rewrite tap_app, H1, tap_cons. cbv zeta.
    destruct (Z.eqb_spec
                (exit_status self (brew_call self ("brew tap " ++ x)) w1) 0)
      as [E|_]; [contradiction|].
    unfold events. cbn [snd].
    now rewrite logged_app, (tap_true_no_warning self l1 w w1 e1 H1).
  - intros H1 z Hz. subst z. rewrite bundle_app, H1, bundle_cons. cbv zeta.
    destruct (Z.eqb_spec
                (exit_status self
                   (brew_call self ("brew bundle --file=" ++ x)) w1) 0)
      as [E|_]; [contradiction|].
    unfold events. cbn [snd].
    now rewrite logged_app, (bundle_true_no_warning self l1 w w1 e1 H1).
  - intros c flag query inst z H1 Hq Hz. subst z.
    pose proof (install_true_no_warning self c l1 w w1 e1 H1) as Hw.
    unfold _install in *. fold (cask_flag_of c) in *. fold flag in H1 |- *.
    rewrite install_loop_app, H1, install_loop_cons. cbv zeta.
    fold query. fold inst.
    destruct (Z.eqb_spec (exit_status self query w1) 0) as [E|_];
      [contradiction|].
    destruct (Z.eqb_spec (exit_status self inst (world_after self query w1)) 0)
      as [E|_]; [contradiction|].
    unfold events. cbn [snd]. now rewrite logged_app, Hw.
Qed.

End Runs.

(** X12: the platform decides the directives. The class body accepts
    the systems darwin and linux and no other; on an accepted system
    tap, brew and brewfile are handled, and cask is handled exactly on
    darwin, whatever the machine. *)
Theorem platform_decides_directives (sys_platform machine : string) :
  (platform_context sys_platform machine = None
   <-> sys_platform <> "darwin" /\ sys_platform <> "linux")
  /\ (forall P d,
        platform_context sys_platform machine = Some P ->
        (can_handle P d = true
         <-> d = "tap" \/ d = "brew" \/ d = "brewfile"
             \/ (sys_platform = "darwin" /\ d = "cask"))).
Proof.
  unfold platform_context.
  destruct (String.eqb_spec sys_platform "darwin") as [->|Hd].
  - split; [split; [discriminate | intros [H _]; now destruct H]|].
    intros P d [= <-]. rewrite can_handle_cases. cbn [_is_macos]. tauto.
  - destruct (String.eqb_spec sys_platform "linux") as [->|Hl].
    + split; [split; [discriminate | intros [_ H]; now destruct H]|].
      intros P d [= <-]. rewrite can_handle_cases. cbn [_is_macos].
      intuition congruence.
    + split; [tauto | discriminate].
Qed.

(** X14: [handle] never returns [None]: with a supported directive one
    [case] of its [match] always applies, and without one it raises
    before the [match]. *)
Theorem handle_never_returns_none (self : Brew) (d : string)
    (data : list string) (w : World self) :
  outcome (handle self d data w) <> Returned None.
Proof.
  destruct (can_handle (platform self) d) eqn:Hd.
  - destruct (handle_supported_outcome self d data w Hd)
      as [[b ->]|(z & c & ->)]; discriminate.
  - unfold handle. rewrite Hd. discriminate.
Qed.

(** ** The properties above on concrete machines *)

Lemma bootstrap_only_when_brew_missing_witness :
  let self := plugin macos_arm64 ["hash brew"] in
  exists rest,
    ~ In install_script (map fst rest)
    /\ invocations (events (handle self "tap" ["a/x"] tt))
       = (sc_cmd (hash_brew_call self), 1%Z) :: (install_script, 0%Z) :: rest.
Proof.
  apply (bootstrap_only_when_brew_missing (plugin macos_arm64 ["hash brew"])
           "tap" ["a/x"] tt).
  reflexivity.
Defined.

Lemma required_tap_failure_raises_witness :
  let self := plugin macos_arm64 ["brew tap homebrew/cask"] in
  handle self "tap" ["a/x"] tt
  = (Raised (CalledProcessError 1 (sc_cmd (required_tap_call self))), tt,
     (events (ensure_brew self tt)
        ++ [Logged LowInfo (sc_cmd (required_tap_call self));
            Ran (required_tap_call self) 1])%list).
Proof.
  apply (required_tap_failure_raises
           (plugin macos_arm64 ["brew tap homebrew/cask"]) "tap" ["a/x"] tt).
  - reflexivity.
  - reflexivity.
  - vm_compute. discriminate.
Defined.

Lemma install_runs_only_queries_witness :
  let self := plugin linux [] in
  outcome (_install self "brew install" ["git"; "curl"] tt) = Returned true
  /\ invocations (events (_install self "brew install" ["git"; "curl"] tt))
     = [(query_cmd self "" "git", 0%Z); (query_cmd self "" "curl", 0%Z)].
Proof.
  apply (install_runs_only_queries (plugin linux []) "brew install"
           ["git"; "curl"] tt).
  vm_compute. repeat constructor.
Defined.

Lemma failure_warning_names_item_witness :
  let self := plugin linux ["brew tap b/y"] in
  logged Warning (events (_tap self ["a/x"; "b/y"; "c/z"] tt))
  = ["Failed to tap [b/y] - Command '" ++ tap_cmd self "b/y"
       ++ "' returned non-zero exit status 1."].
Proof.
  destruct (failure_warning_names_item (plugin linux ["brew tap b/y"])
              ["a/x"] ["c/z"] "b/y" tt tt
              (events (_tap (plugin linux ["brew tap b/y"]) ["a/x"] tt)))
    as (Ht & _).
  cbv zeta.
  change ["a/x"; "b/y"; "c/z"] with (["a/x"] ++ "b/y" :: ["c/z"])%list.
  rewrite Ht; [vm_compute; reflexivity | reflexivity | vm_compute; discriminate].
Defined.

Lemma platform_decides_directives_witness :
  can_handle macos_arm64 "cask" = true
  <-> "cask" = "tap" \/ "cask" = "brew" \/ "cask" = "brewfile"
      \/ ("darwin" = "darwin" /\ "cask" = "cask").
Proof.
  apply (proj2 (platform_decides_directives "darwin" "arm64") macos_arm64 "cask").
  reflexivity.
Defined.

Lemma handle_empty_data_succeeds_witness :
  let self := plugin macos_arm64 ["hash brew"] in
  outcome (handle self "brewfile" [] tt) = Returned (Some true)
  /\ invocations (events (handle self "brewfile" [] tt))
     = (invocations (events (ensure_brew self tt))
          ++ invocations
               (events (required_tap self (snd (fst (ensure_brew self tt))))))%list.
Proof.
  apply (handle_empty_data_succeeds (plugin macos_arm64 ["hash brew"])
           "brewfile" tt).
  - reflexivity.
  - intros _. vm_compute. reflexivity.
Defined.
